(** * Salgstrener-AI: the voice call session of [CallInterface.tsx]

    A shallow embedding of the React component [CallInterface]
    (src/components/CallInterface.tsx), of [App.tsx] and the screens it
    mounts, and of the three functions of src/services/gemini.ts.

    The component is a bundle of [useState] cells, [useRef] cells and
    callbacks that the browser invokes one at a time.  The embedding keeps
    that shape: a record for the state cells, a record for the refs, a heap
    of browser objects (audio contexts, media streams, nodes, buffer sources,
    live sessions) addressed by index, and one function per callback of the
    source, named after it.  An [async] function is cut at its [await]s:
    [startSession] into the part before [await getUserMedia] and the
    continuation, with the calls in between kept as pending.

    The audio path of [onmessage] appears twice.  In the event loop of the
    whole component a message is handled in one step and playback times
    ([AudioContext.currentTime], [AudioBuffer.duration], [nextStartTimeRef])
    are exact numbers in [Z]: this is the view in which one call's effect
    on the component is stated (what it touches, what it leaves alone, what
    a failed decode changes).  In [Scheduler] the same lines are taken on
    binary64 seconds and with the handler suspended at its [await]s, so that
    other callbacks run in between: this is the view in which start times
    are added up and a chunk is related to the chunks and interruptions
    around it.

    Numbers.  Microphone samples, the RMS and the volume level are binary64
    floats, as in JavaScript, and are computed with the kernel's primitive
    floats; so are the times of [Scheduler].  [Date.now()] is an integer
    number of milliseconds. *)

From Stdlib Require Import ZArith List Floats.PrimFloat Floats.FloatClass
  Floats.SpecFloat Floats.FloatOps Floats.FloatAxioms
  Numbers.Cyclic.Int63.Uint63.
From stdpp Require Import gmap strings list.

Local Open Scope Z_scope.
Set Warnings "-inexact-float".

(** ** types.ts *)

Inductive Role := user | model.

Record ChatMessage := {
  role : Role;
  text : string;
  timestamp : Z
}.

Inductive AppState := SETUP | PERSONA_SELECTION | CALLING | EVALUATION | HISTORY.

Record ProductContext := {
  url : string;
  companyName : string;
  description : string;
  sellingPoints : list string
}.

Global Instance Role_eq_dec : EqDecision Role.
Proof. solve_decision. Defined.

(** ** Browser objects

    What the Web Audio, MediaStream and Live API objects expose to this
    component.  The heap of each kind is a list; an object is named by its
    index and a new object is appended. *)

Inductive CtxState := running | suspended | closed.

Record AudioContext := {
  sampleRate : Z;
  ctx_state : CtxState
}.

(** A [MediaStream] from [getUserMedia]; [live] until its tracks are stopped. *)
Record MediaStream := { live : bool }.

(** A [MediaStreamAudioSourceNode]. *)
Record InputSource := { src_stream : nat; src_connected : bool }.

(** A [ScriptProcessorNode] with its [onaudioprocess] callback.  The callback
    is a closure: the [isMuted] it tests is the constant of the render in
    which [setupAudioInput] was created, kept here as [sp_isMuted]. *)
Record ScriptProcessor := {
  sp_connected : bool;
  sp_isMuted : bool
}.

(** An [AudioBufferSourceNode] after [source.start(startTime)]. *)
Record BufferSource := {
  startTime : Z;
  duration : Z;
  stopped : bool
}.

(** The decoded [AudioBuffer]; only its duration is read. *)
Record AudioBuffer := { buf_duration : Z }.

(** The [LiveServerMessage] fields that [onmessage] reads, each through a
    chain of [?.]: [None] stands for [undefined]. *)
Record LiveServerMessage := {
  outputTranscription : option string;
  inputTranscription : option string;
  inlineData : option string;
  interrupted : bool
}.

(** JavaScript truthiness of an optional string: [undefined] and the empty
    string are falsy. *)
Definition truthy (o : option string) : option string :=
  match o with
  | Some s => if decide (s = EmptyString) then None else Some s
  | None => None
  end.

(** JavaScript truthiness of a value that is stored and later tested with
    [&&] or [!]: each type of such values says which of them are truthy. *)
Class Truthy (A : Type) := is_truthy : A -> bool.

(** A string is truthy unless it is empty. *)
Global Instance string_truthy : Truthy string :=
  fun s => if decide (s = EmptyString) then false else true.

(** ** The component's state *)

Inductive Status := idle | connecting | connected | error.

(** The constants of one render that [startSession] and the callbacks it
    creates close over. *)
Record RenderScope := {
  r_status : Status;
  r_isMuted : bool
}.

(** [useState] cells. *)
Record UiState := {
  status : Status;
  errorMsg : string;
  isMuted : bool;
  volumeLevel : float;
  transcript : list ChatMessage
}.

(** [useRef] cells; a browser object is referred to by its heap index. *)
Record Refs := {
  audioContextRef : option nat;
  inputSourceRef : option nat;
  processorRef : option nat;
  streamRef : option nat;
  nextStartTimeRef : Z;
  audioQueueRef : gset nat;
  sessionPromiseRef : option nat;
  mountedRef : bool
}.

(** The part of [App]'s state that the call screen writes. *)
Record App := {
  state : AppState;
  callTranscript : list ChatMessage
}.

Definition set_status (v : Status) (u : UiState) : UiState :=
  {| status := v; errorMsg := errorMsg u; isMuted := isMuted u;
     volumeLevel := volumeLevel u; transcript := transcript u |}.
Definition set_errorMsg (v : string) (u : UiState) : UiState :=
  {| status := status u; errorMsg := v; isMuted := isMuted u;
     volumeLevel := volumeLevel u; transcript := transcript u |}.
Definition set_isMuted (v : bool) (u : UiState) : UiState :=
  {| status := status u; errorMsg := errorMsg u; isMuted := v;
     volumeLevel := volumeLevel u; transcript := transcript u |}.
Definition set_volumeLevel (v : float) (u : UiState) : UiState :=
  {| status := status u; errorMsg := errorMsg u; isMuted := isMuted u;
     volumeLevel := v; transcript := transcript u |}.
Definition set_transcript (v : list ChatMessage) (u : UiState) : UiState :=
  {| status := status u; errorMsg := errorMsg u; isMuted := isMuted u;
     volumeLevel := volumeLevel u; transcript := v |}.

Definition set_audioContextRef (v : option nat) (r : Refs) : Refs :=
  {| audioContextRef := v; inputSourceRef := inputSourceRef r;
     processorRef := processorRef r; streamRef := streamRef r;
     nextStartTimeRef := nextStartTimeRef r; audioQueueRef := audioQueueRef r;
     sessionPromiseRef := sessionPromiseRef r; mountedRef := mountedRef r |}.
Definition set_inputSourceRef (v : option nat) (r : Refs) : Refs :=
  {| audioContextRef := audioContextRef r; inputSourceRef := v;
     processorRef := processorRef r; streamRef := streamRef r;
     nextStartTimeRef := nextStartTimeRef r; audioQueueRef := audioQueueRef r;
     sessionPromiseRef := sessionPromiseRef r; mountedRef := mountedRef r |}.
Definition set_processorRef (v : option nat) (r : Refs) : Refs :=
  {| audioContextRef := audioContextRef r; inputSourceRef := inputSourceRef r;
     processorRef := v; streamRef := streamRef r;
     nextStartTimeRef := nextStartTimeRef r; audioQueueRef := audioQueueRef r;
     sessionPromiseRef := sessionPromiseRef r; mountedRef := mountedRef r |}.
Definition set_streamRef (v : option nat) (r : Refs) : Refs :=
  {| audioContextRef := audioContextRef r; inputSourceRef := inputSourceRef r;
     processorRef := processorRef r; streamRef := v;
     nextStartTimeRef := nextStartTimeRef r; audioQueueRef := audioQueueRef r;
     sessionPromiseRef := sessionPromiseRef r; mountedRef := mountedRef r |}.
Definition set_nextStartTimeRef (v : Z) (r : Refs) : Refs :=
  {| audioContextRef := audioContextRef r; inputSourceRef := inputSourceRef r;
     processorRef := processorRef r; streamRef := streamRef r;
     nextStartTimeRef := v; audioQueueRef := audioQueueRef r;
     sessionPromiseRef := sessionPromiseRef r; mountedRef := mountedRef r |}.
Definition set_audioQueueRef (v : gset nat) (r : Refs) : Refs :=
  {| audioContextRef := audioContextRef r; inputSourceRef := inputSourceRef r;
     processorRef := processorRef r; streamRef := streamRef r;
     nextStartTimeRef := nextStartTimeRef r; audioQueueRef := v;
     sessionPromiseRef := sessionPromiseRef r; mountedRef := mountedRef r |}.
Definition set_sessionPromiseRef (v : option nat) (r : Refs) : Refs :=
  {| audioContextRef := audioContextRef r; inputSourceRef := inputSourceRef r;
     processorRef := processorRef r; streamRef := streamRef r;
     nextStartTimeRef := nextStartTimeRef r; audioQueueRef := audioQueueRef r;
     sessionPromiseRef := v; mountedRef := mountedRef r |}.
Definition set_mountedRef (v : bool) (r : Refs) : Refs :=
  {| audioContextRef := audioContextRef r; inputSourceRef := inputSourceRef r;
     processorRef := processorRef r; streamRef := streamRef r;
     nextStartTimeRef := nextStartTimeRef r; audioQueueRef := audioQueueRef r;
     sessionPromiseRef := sessionPromiseRef r; mountedRef := v |}.

(** ** TranscriptAssembler: [updateTranscript] (lines 36-48)

    The updater passed to [setTranscript]; [now] is the [Date.now()] read
    when a new message is created. *)
Definition updateTranscript (r : Role) (t : string) (now : Z)
    (prev : list ChatMessage) : list ChatMessage :=
  match prev !! (length prev - 1)%nat with
  | Some lastMsg =>
      if decide (role lastMsg = r) then
        <[(length prev - 1)%nat :=
            {| role := role lastMsg; text := text lastMsg +:+ t;
               timestamp := timestamp lastMsg |}]> prev
      else prev ++ [{| role := r; text := t; timestamp := now |}]
  | None => prev ++ [{| role := r; text := t; timestamp := now |}]
  end.

(** The assembler run over a sequence of deltas [(role, text, Date.now())]. *)
Definition assemble (deltas : list (Role * string * Z))
    (init : list ChatMessage) : list ChatMessage :=
  fold_left (fun acc d => updateTranscript d.1.1 d.1.2 d.2 acc) deltas init.

(** ** VoiceActivityGate: the arithmetic of [onaudioprocess] (lines 211-221) *)

(** [let sum = 0; for (...) sum += inputData[i] * inputData[i]] *)
Definition sum_squares (inputData : list float) : float :=
  fold_left (fun sum x => sum + x * x)%float inputData 0%float.

(** [inputData.length] as a JavaScript number. *)
Definition float_length (inputData : list float) : float :=
  PrimFloat.of_uint63 (Uint63.of_Z (Z.of_nat (length inputData))).

(** [Math.sqrt(sum / inputData.length)] *)
Definition rms (inputData : list float) : float :=
  PrimFloat.sqrt (sum_squares inputData / float_length inputData).

Definition is_nan (x : float) : bool := negb (PrimFloat.eqb x x).

(** [Math.min]: NaN if either argument is NaN. *)
Definition Math_min (a b : float) : float :=
  if is_nan a || is_nan b then PrimFloat.nan
  else if PrimFloat.ltb b a then b else a.

(** The threshold of the gate, [rms > 0.01]. *)
Definition VAD_THRESHOLD : float := 0.01%float.

(** ** CallInterface.tsx

    [../utils/audio] is not part of the sources at hand.  Its encoder
    [createPCM16Blob] and its decoder (the composition
    [decodeAudioData(base64ToUint8Array(data), ctx)], [None] when it throws)
    are parameters of the development. *)

Section CallInterface.

Context {Blob : Type}.
Variable createPCM16Blob : list float -> Blob.
Variable decodeAudioData : string -> option AudioBuffer.

(** A live session as returned by [ai.live.connect(config)].  Its callbacks
    are closures of the [startSession] call that created them: they hold that
    call's [stream] and, through [setupAudioInput], that render's [isMuted].
    [sess_open] is the transport handle (cleared only by the transport
    itself: the component has no call to [session.close()]); [sent] is the
    log of [session.sendRealtimeInput({ media })]. *)
Record Session := {
  sess_open : bool;
  cb_stream : nat;
  cb_isMuted : bool;
  sent : list Blob
}.

Record Browser := {
  contexts : list AudioContext;
  streams : list MediaStream;
  inputSources : list InputSource;
  processors : list ScriptProcessor;
  bufferSources : list BufferSource;
  sessions : list Session
}.

(** The whole picture: [App]'s state, the component's state cells and refs,
    the browser heap, and the [startSession] calls suspended at
    [await getUserMedia] (each with the render scope it closed over). *)
Record World := {
  app : App;
  ui : UiState;
  refs : Refs;
  browser : Browser;
  pending : list RenderScope
}.

Definition upd_app (f : App -> App) (w : World) : World :=
  {| app := f (app w); ui := ui w; refs := refs w; browser := browser w;
     pending := pending w |}.
Definition upd_ui (f : UiState -> UiState) (w : World) : World :=
  {| app := app w; ui := f (ui w); refs := refs w; browser := browser w;
     pending := pending w |}.
Definition upd_refs (f : Refs -> Refs) (w : World) : World :=
  {| app := app w; ui := ui w; refs := f (refs w); browser := browser w;
     pending := pending w |}.
Definition upd_browser (f : Browser -> Browser) (w : World) : World :=
  {| app := app w; ui := ui w; refs := refs w; browser := f (browser w);
     pending := pending w |}.
Definition set_pending (v : list RenderScope) (w : World) : World :=
  {| app := app w; ui := ui w; refs := refs w; browser := browser w;
     pending := v |}.

Definition upd_contexts (f : list AudioContext -> list AudioContext)
    (b : Browser) : Browser :=
  {| contexts := f (contexts b); streams := streams b;
     inputSources := inputSources b; processors := processors b;
     bufferSources := bufferSources b; sessions := sessions b |}.
Definition upd_streams (f : list MediaStream -> list MediaStream)
    (b : Browser) : Browser :=
  {| contexts := contexts b; streams := f (streams b);
     inputSources := inputSources b; processors := processors b;
     bufferSources := bufferSources b; sessions := sessions b |}.
Definition upd_inputSources (f : list InputSource -> list InputSource)
    (b : Browser) : Browser :=
  {| contexts := contexts b; streams := streams b;
     inputSources := f (inputSources b); processors := processors b;
     bufferSources := bufferSources b; sessions := sessions b |}.
Definition upd_processors (f : list ScriptProcessor -> list ScriptProcessor)
    (b : Browser) : Browser :=
  {| contexts := contexts b; streams := streams b;
     inputSources := inputSources b; processors := f (processors b);
     bufferSources := bufferSources b; sessions := sessions b |}.
Definition upd_bufferSources (f : list BufferSource -> list BufferSource)
    (b : Browser) : Browser :=
  {| contexts := contexts b; streams := streams b;
     inputSources := inputSources b; processors := processors b;
     bufferSources := f (bufferSources b); sessions := sessions b |}.
Definition upd_sessions (f : list Session -> list Session)
    (b : Browser) : Browser :=
  {| contexts := contexts b; streams := streams b;
     inputSources := inputSources b; processors := processors b;
     bufferSources := bufferSources b; sessions := f (sessions b) |}.

(** *** Methods of the browser objects *)

(** [track.stop()] on every track of the stream. *)
Definition stop_tracks (m : MediaStream) : MediaStream := {| live := false |}.

(** [node.disconnect()] *)
Definition disconnect_source (n : InputSource) : InputSource :=
  {| src_stream := src_stream n; src_connected := false |}.
Definition disconnect_processor (p : ScriptProcessor) : ScriptProcessor :=
  {| sp_connected := false; sp_isMuted := sp_isMuted p |}.

(** [ctx.close()] and [ctx.resume()] *)
Definition close_ctx (c : AudioContext) : AudioContext :=
  {| sampleRate := sampleRate c; ctx_state := closed |}.
Definition resume_ctx (c : AudioContext) : AudioContext :=
  {| sampleRate := sampleRate c;
     ctx_state := match ctx_state c with suspended => running | s => s end |}.

(** [source.stop()] *)
Definition stop_source (b : BufferSource) : BufferSource :=
  {| startTime := startTime b; duration := duration b; stopped := true |}.

(** [session.sendRealtimeInput({ media })] inside [try]: on a closed
    transport the call fails, the failure is logged and nothing is sent. *)
Definition sendRealtimeInput (media : Blob) (s : Session) : Session :=
  if sess_open s then
    {| sess_open := true; cb_stream := cb_stream s;
       cb_isMuted := cb_isMuted s; sent := sent s ++ [media] |}
  else s.

(** [audioQueueRef.current.forEach(source => source.stop())] *)
Definition stop_all (queue : gset nat) (h : list BufferSource)
    : list BufferSource :=
  foldr (fun src h => alter stop_source src h) h (elements queue).

(** *** [cleanup] (lines 242-257) *)
Definition cleanup (w : World) : World :=
  let w := match streamRef (refs w) with
           | Some stream => upd_browser (upd_streams (alter stop_tracks stream)) w
           | None => w
           end in
  let w := match processorRef (refs w) with
           | Some p =>
               upd_refs (set_processorRef None)
                 (upd_browser (upd_processors (alter disconnect_processor p)) w)
           | None => w
           end in
  let w := match inputSourceRef (refs w) with
           | Some i => upd_browser (upd_inputSources (alter disconnect_source i)) w
           | None => w
           end in
  match audioContextRef (refs w) with
  | Some c =>
      upd_refs (set_audioContextRef None)
        (upd_browser (upd_contexts (alter close_ctx c)) w)
  | None => w
  end.

(** *** [onaudioprocess] (lines 208-233)

    [muted] is the [isMuted] the closure holds.  The [then] callback on
    [sessionPromiseRef.current] is taken to run: the promise settles with the
    session once the transport has opened, and the processor only exists
    after [onopen]. *)
Definition onaudioprocess (muted : bool) (inputData : list float)
    (w : World) : World :=
  if muted then w
  else
    let rms := rms inputData in
    let w := upd_ui (set_volumeLevel (Math_min 1%float (rms * 5)%float)) w in
    if PrimFloat.ltb VAD_THRESHOLD rms then
      let pcmBlob := createPCM16Blob inputData in
      match sessionPromiseRef (refs w) with
      | Some session =>
          upd_browser (upd_sessions (alter (sendRealtimeInput pcmBlob) session)) w
      | None => w
      end
    else w.

(** *** [setupAudioInput] (lines 201-240)

    [muted] is the [isMuted] of the render whose [setupAudioInput] this is;
    the [onaudioprocess] callback it installs keeps it. *)
Definition setupAudioInput (muted : bool) (stream : nat) (w : World) : World :=
  match audioContextRef (refs w) with
  | None => w
  | Some _ =>
      let source := length (inputSources (browser w)) in
      let processor := length (processors (browser w)) in
      let w := upd_browser (upd_contexts (fun l =>
                 l ++ [{| sampleRate := 16000; ctx_state := running |}])) w in
      let w := upd_browser (upd_inputSources (fun l =>
                 l ++ [{| src_stream := stream; src_connected := true |}])) w in
      let w := upd_browser (upd_processors (fun l =>
                 l ++ [{| sp_connected := true; sp_isMuted := muted |}])) w in
      let w := upd_refs (set_inputSourceRef (Some source)) w in
      upd_refs (set_processorRef (Some processor)) w
  end.

(** *** [startSession] (lines 50-187) *)

(** The [catch] block (lines 182-186), reached with [err.message]. *)
Definition startSession_denied (message : string) (w : World) : World :=
  let w := upd_ui (set_status error) w in
  upd_ui (set_errorMsg
            (if decide (message = "") then "Kunne ikke starte sesjonen"
             else message)) w.

(** Where the [try] block can throw before it reaches [await]: in
    [new GoogleGenAI] (no API key), in [new AudioContextClass] (no such
    class), or in the call [navigator.mediaDevices.getUserMedia(...)]
    itself ([mediaDevices] is undefined on an insecure origin). *)
Inductive ThrowSite := AtGoogleGenAI | AtAudioContext | AtGetUserMedia.

(** The part before [await getUserMedia]; [sc] holds the [status] and
    [isMuted] of the render whose [startSession] was called, and [thrown]
    says whether, where and with which message this run throws. *)
Definition startSession (thrown : option (ThrowSite * string))
    (sc : RenderScope) (w : World) : World :=
  match r_status sc with
  | connecting | connected => w
  | _ =>
      let w := upd_ui (set_status connecting) w in
      let w := upd_ui (set_errorMsg "") w in
      match thrown with
      | Some (AtGoogleGenAI, message) | Some (AtAudioContext, message) =>
          startSession_denied message w
      | _ =>
          let ctx := length (contexts (browser w)) in
          let w := upd_browser (upd_contexts (fun l =>
                     l ++ [{| sampleRate := 24000; ctx_state := running |}])) w in
          let w := upd_refs (set_audioContextRef (Some ctx)) w in
          match thrown with
          | Some (_, message) => startSession_denied message w
          | None => set_pending (pending w ++ [sc]) w
          end
      end
  end.

(** The continuation when [getUserMedia] resolves with [stream]:
    [streamRef.current = stream], the [systemInstruction] template, and
    [sessionPromiseRef.current = ai.live.connect(config)].  The template
    reads [product.sellingPoints.join]; [thrown] is the message of the
    [TypeError] when the product handed down has no such array. *)
Definition startSession_granted (thrown : option string) (sc : RenderScope)
    (stream : nat) (w : World) : World :=
  let w := upd_refs (set_streamRef (Some stream)) w in
  match thrown with
  | Some message => startSession_denied message w
  | None =>
      let session := length (sessions (browser w)) in
      let w := upd_browser (upd_sessions (fun l =>
                 l ++ [{| sess_open := true; cb_stream := stream;
                          cb_isMuted := r_isMuted sc; sent := [] |}])) w in
      upd_refs (set_sessionPromiseRef (Some session)) w
  end.

(** *** The session callbacks (lines 104-178) *)

Definition onopen (s : Session) (w : World) : World :=
  if mountedRef (refs w) then
    setupAudioInput (cb_isMuted s) (cb_stream s)
      (upd_ui (set_status connected) w)
  else w.

(** [onmessage], in the three blocks its comments name.  [currentTime] is
    [ctx.currentTime] as read by this call and [dateNow] is [Date.now()]. *)

(** "Handle Transcription" (lines 115-121) *)
Definition handleTranscription (dateNow : Z) (message : LiveServerMessage)
    (w : World) : World :=
  let w := match truthy (outputTranscription message) with
           | Some t =>
               upd_ui (fun u => set_transcript
                         (updateTranscript model t dateNow (transcript u)) u) w
           | None => w
           end in
  match truthy (inputTranscription message) with
  | Some t =>
      upd_ui (fun u => set_transcript
                (updateTranscript user t dateNow (transcript u)) u) w
  | None => w
  end.

(** "Handle Audio Output" (lines 123-154) *)
Definition handleAudioOutput (currentTime : Z) (message : LiveServerMessage)
    (w : World) : World :=
  match truthy (inlineData message), audioContextRef (refs w) with
  | Some base64Audio, Some ctx =>
      let w := upd_browser (upd_contexts (alter resume_ctx ctx)) w in
      let w := upd_refs (fun r => set_nextStartTimeRef
                 (Z.max (nextStartTimeRef r) currentTime) r) w in
      match decodeAudioData base64Audio with
      | Some audioBuffer =>
          let source := length (bufferSources (browser w)) in
          let w := upd_browser (upd_bufferSources (fun l =>
                     l ++ [{| startTime := nextStartTimeRef (refs w);
                              duration := buf_duration audioBuffer;
                              stopped := false |}])) w in
          let w := upd_refs (fun r => set_nextStartTimeRef
                     (nextStartTimeRef r + buf_duration audioBuffer) r) w in
          upd_refs (fun r => set_audioQueueRef
                     ({[source]} ∪ audioQueueRef r) r) w
      | None => w
      end
  | _, _ => w
  end.

(** "Handle Interruption" (lines 156-166) *)
Definition handleInterruption (currentTime : Z) (message : LiveServerMessage)
    (w : World) : World :=
  if interrupted message then
    let w := upd_browser (upd_bufferSources
               (stop_all (audioQueueRef (refs w)))) w in
    let w := upd_refs (set_audioQueueRef ∅) w in
    match audioContextRef (refs w) with
    | Some _ => upd_refs (set_nextStartTimeRef currentTime) w
    | None => w
    end
  else w.

Definition onmessage (currentTime dateNow : Z) (message : LiveServerMessage)
    (w : World) : World :=
  if negb (mountedRef (refs w)) then w
  else
    handleInterruption currentTime message
      (handleAudioOutput currentTime message
         (handleTranscription dateNow message w)).

(** [source.onended]: [audioQueueRef.current.delete(source)] *)
Definition onended (source : nat) (w : World) : World :=
  upd_refs (fun r => set_audioQueueRef (audioQueueRef r ∖ {[source]}) r) w.

Definition onclose (w : World) : World := w.

Definition onerror (w : World) : World :=
  if mountedRef (refs w) then
    let w := upd_ui (set_status error) w in
    upd_ui (set_errorMsg
      "Mistet kontakten med serveren. Sjekk internett eller prøv igjen.") w
  else w.

(** *** The remaining handlers (lines 189-199, 259-266) *)

Definition toggleMute (w : World) : World :=
  upd_ui (set_isMuted (negb (isMuted (ui w)))) w.

(** The cleanup function of the mount effect. *)
Definition unmount (w : World) : World :=
  cleanup (upd_refs (set_mountedRef false) w).

(** [App.handleEndCall], passed as [onEndCall]. *)
Definition handleEndCall (t : list ChatMessage) (w : World) : World :=
  upd_app (fun _ => {| state := EVALUATION; callTranscript := t |}) w.

(** [App]'s [onCancel]: [setState(AppState.PERSONA_SELECTION)]. *)
Definition onCancel (w : World) : World :=
  upd_app (fun a => {| state := PERSONA_SELECTION;
                       callTranscript := callTranscript a |}) w.

Definition handleHangup (w : World) : World :=
  handleEndCall (transcript (ui w)) (cleanup w).

(** *** What the component renders (lines 268-386) *)

Inductive Button :=
  | StartSamtale      (* "Start Samtale": [onClick={startSession}] *)
  | ProvIgjen         (* "Prøv Igjen": [setStatus('idle'); startSession()] *)
  | GaTilbake         (* "Gå tilbake": [onClick={onCancel}] *)
  | MuteButton        (* [onClick={toggleMute}] *)
  | AvsluttSamtale.   (* "Avslutt samtale": [onClick={handleHangup}] *)

Inductive Screen :=
  | ErrorScreen (message : string)
  | RingingScreen (spinner : bool)
  | ActiveScreen (subtitle : string) (muted : bool).

Definition render (u : UiState) : Screen :=
  match status u with
  | error => ErrorScreen (errorMsg u)
  | idle => RingingScreen false
  | connecting => RingingScreen true
  | connected =>
      ActiveScreen
        (match transcript u !! (length (transcript u) - 1)%nat with
         | Some m => text m
         | None => "..."
         end)
        (isMuted u)
  end.

(** The buttons each screen offers. *)
Definition buttons (s : Screen) : list Button :=
  match s with
  | ErrorScreen _ => [ProvIgjen; GaTilbake]
  | RingingScreen spinner => if spinner then [] else [StartSamtale]
  | ActiveScreen _ _ => [MuteButton; AvsluttSamtale]
  end.

Global Instance Button_eq_dec : EqDecision Button.
Proof. solve_decision. Defined.

(** *** The event loop

    Everything that can call into the component.  A click reaches a handler
    only if the current screen shows the button.  [App] renders
    [CallInterface] only while its state is [CALLING], so the two handlers
    that leave that state ([onEndCall], [onCancel]) are followed by the
    unmount effect within the same click.  [ClickThrows] is a click during
    which the [try] block of [startSession] throws at the site given, and
    [MediaGrantedThrows] a microphone grant after which it does; [Click] and
    [MediaGranted] are the runs in which nothing throws. *)
Inductive Event :=
  | Click (b : Button)
  | ClickThrows (b : Button) (site : ThrowSite) (message : string)
  | MediaGranted
  | MediaGrantedThrows (message : string)
  | MediaDenied (message : string)
  | SessionOpen (session : nat)
  | SessionMessage (session : nat) (currentTime dateNow : Z)
      (message : LiveServerMessage)
  | SessionError (session : nat)
  | SessionClose (session : nat)
  | AudioProcess (processor : nat) (inputData : list float)
  | SourceEnded (source : nat)
  | Unmount.

Definition scope_of (w : World) : RenderScope :=
  {| r_status := status (ui w); r_isMuted := isMuted (ui w) |}.

Definition click (thrown : option (ThrowSite * string)) (b : Button)
    (w : World) : World :=
  match b with
  | StartSamtale => startSession thrown (scope_of w) w
  | ProvIgjen => startSession thrown (scope_of w) (upd_ui (set_status idle) w)
  | GaTilbake => unmount (onCancel w)
  | MuteButton => toggleMute w
  | AvsluttSamtale => unmount (handleHangup w)
  end.

(** The transport closing a session, seen from the browser. *)
Definition transport_closed (s : Session) : Session :=
  {| sess_open := false; cb_stream := cb_stream s;
     cb_isMuted := cb_isMuted s; sent := sent s |}.

Definition step (e : Event) (w : World) : World :=
  match e with
  | Click b =>
      if mountedRef (refs w) && bool_decide (b ∈ buttons (render (ui w)))
      then click None b w else w
  | ClickThrows b site message =>
      if mountedRef (refs w) && bool_decide (b ∈ buttons (render (ui w)))
      then click (Some (site, message)) b w else w
  | MediaGranted =>
      match pending w with
      | sc :: rest =>
          let stream := length (streams (browser w)) in
          let w := upd_browser (upd_streams (fun l =>
                     l ++ [{| live := true |}])) w in
          startSession_granted None sc stream (set_pending rest w)
      | [] => w
      end
  | MediaGrantedThrows message =>
      match pending w with
      | sc :: rest =>
          let stream := length (streams (browser w)) in
          let w := upd_browser (upd_streams (fun l =>
                     l ++ [{| live := true |}])) w in
          startSession_granted (Some message) sc stream (set_pending rest w)
      | [] => w
      end
  | MediaDenied message =>
      match pending w with
      | _ :: rest => startSession_denied message (set_pending rest w)
      | [] => w
      end
  | SessionOpen session =>
      match sessions (browser w) !! session with
      | Some s => onopen s w
      | None => w
      end
  | SessionMessage session currentTime dateNow message =>
      match sessions (browser w) !! session with
      | Some _ => onmessage currentTime dateNow message w
      | None => w
      end
  | SessionError session =>
      match sessions (browser w) !! session with
      | Some _ => onerror w
      | None => w
      end
  | SessionClose session =>
      match sessions (browser w) !! session with
      | Some _ =>
          onclose (upd_browser (upd_sessions (alter transport_closed session)) w)
      | None => w
      end
  | AudioProcess processor inputData =>
      match processors (browser w) !! processor with
      | Some p =>
          if sp_connected p then onaudioprocess (sp_isMuted p) inputData w
          else w
      | None => w
      end
  | SourceEnded source => onended source w
  | Unmount => unmount w
  end.

Definition run (events : list Event) (w : World) : World :=
  fold_left (fun w e => step e w) events w.

(** The component as mounted by [App] in state [CALLING]. *)
Definition mounted : World :=
  {| app := {| state := CALLING; callTranscript := [] |};
     ui := {| status := idle; errorMsg := ""; isMuted := false;
              volumeLevel := 0%float; transcript := [] |};
     refs := {| audioContextRef := None; inputSourceRef := None;
                processorRef := None; streamRef := None;
                nextStartTimeRef := 0; audioQueueRef := ∅;
                sessionPromiseRef := None; mountedRef := true |};
     browser := {| contexts := []; streams := []; inputSources := [];
                   processors := []; bufferSources := []; sessions := [] |};
     pending := [] |}.

End CallInterface.

Arguments World : clear implicits.
Arguments Browser : clear implicits.
Arguments Session : clear implicits.
Arguments mounted : clear implicits.

(** ** services/gemini.ts: [extractProductInfo] (lines 8-56)

    An [async] function body either returns or throws; the promise it
    yields is fulfilled or rejected accordingly. *)

Inductive Completion (A : Type) :=
  | Return (a : A)
  | Throw (e : string).
Arguments Return {A} a.
Arguments Throw {A} e.

Definition bind {A B : Type} (c : Completion A) (k : A -> Completion B)
    : Completion B :=
  match c with
  | Return a => k a
  | Throw e => Throw e
  end.

(** [try { body } catch (error) { handler }] *)
Definition try_catch {A : Type} (body : Completion A)
    (handler : string -> Completion A) : Completion A :=
  match body with
  | Return a => Return a
  | Throw e => handler e
  end.

(** What the function hands back under the type [ProductContext]: the
    parsed reply of the model, cast without a check, or the literal of the
    [catch] block. *)
Inductive Extracted (Json : Type) :=
  | FromModel (json : Json)
  | Literal (p : ProductContext).
Arguments FromModel {Json} json.
Arguments Literal {Json} p.

(** An object literal is truthy; a parsed reply may be anything ([null], a
    number, a string, ...). *)
Global Instance Extracted_truthy {Json : Type} `{!Truthy Json}
    : Truthy (Extracted Json) :=
  fun v => match v with
           | FromModel json => is_truthy json
           | Literal _ => true
           end.

Definition quote : string := String (Ascii.ascii_of_nat 34) EmptyString.

Definition newline : string := String (Ascii.ascii_of_nat 10) EmptyString.

Definition extract_prompt (url manualText : string) : string :=
  newline +:+
  "    Jeg trenger informasjon om bedriften eller produktet fra denne URL-en: "
  +:+ url +:+ "." +:+ newline +:+
  "    " +:+ newline +:+
  "    Hvis du ikke kan besøke URL-en, bruk følgende tilleggstekst fra brukeren til å forstå hva de selger:"
  +:+ newline +:+
  "    " +:+ quote +:+ manualText +:+ quote +:+ newline +:+
  newline +:+
  "    Analyser dette og returner et JSON-objekt med:" +:+ newline +:+
  "    - companyName: Navn på bedriften/produktet" +:+ newline +:+
  "    - description: Kort beskrivelse av hva de gjør (maks 2 setninger)"
  +:+ newline +:+
  "    - sellingPoints: Liste med 3-5 unike salgsargumenter (USPs)"
  +:+ newline +:+
  newline +:+
  "    Svar KUN med JSON." +:+ newline +:+
  "  ".

Section Gemini.

(** The library calls.  [getClient()] is [new GoogleGenAI({ apiKey })]: it
    returns the client or throws (the constructor of the browser build
    refuses a missing API key).  [ai.models.generateContent] on a prompt
    gives [response.text] ([None] for [undefined]) or throws, and so may
    [JSON.parse]. *)
Context {Json : Type}.
Variable getClient : Completion unit.
Variable generateContent : string -> Completion (option string).
Variable JSON_parse : string -> Completion Json.

Definition extractProductInfo (url manualText : string)
    : Completion (Extracted Json) :=
  bind getClient (fun ai =>
  let prompt := extract_prompt url manualText in
  try_catch
    (bind (generateContent prompt) (fun response_text =>
       match truthy response_text with
       | Some t => bind (JSON_parse t) (fun json => Return (FromModel json))
       | None => Throw "No response from AI"
       end))
    (fun error =>
       Return (Literal
         {| url := url;
            companyName := "Ukjent Bedrift";
            description :=
              "Kunne ikke hente info automatisk. Bruker standard oppsett.";
            sellingPoints := ["Kvalitet"; "Service"; "Innovasjon"] |}))).

End Gemini.

(** ** Stand-ins for [utils/audio] in the worked scenarios

    The encoder keeps the samples; the decoder fails on a payload that
    starts with [!] and otherwise yields a buffer of as many frames as the
    payload has characters. *)

Definition sample_encode (inputData : list float) : list float := inputData.

Definition sample_decode (data : string) : option AudioBuffer :=
  if String.prefix "!" data then None
  else Some {| buf_duration := Z.of_nat (String.length data) |}.

Definition audioMsg (data : string) : LiveServerMessage :=
  {| outputTranscription := None; inputTranscription := None;
     inlineData := Some data; interrupted := false |}.

Definition interruptedMsg : LiveServerMessage :=
  {| outputTranscription := None; inputTranscription := None;
     inlineData := None; interrupted := true |}.

(** A call that has been started, granted the microphone and opened. *)
Definition connected_call : World (list float) :=
  run sample_encode sample_decode
    [Click StartSamtale; MediaGranted; SessionOpen 0%nat]
    (mounted (list float)).

(** A call with one buffer scheduled and still playing. *)
Definition playing_call : World (list float) :=
  step sample_encode sample_decode
    (SessionMessage 0%nat 0 0 (audioMsg "abcdef")) connected_call.

(** A transcript delta of the model or of the user, as the server sends it. *)
Definition transcriptMsg (r : Role) (t : string) : LiveServerMessage :=
  {| outputTranscription := match r with model => Some t | user => None end;
     inputTranscription := match r with user => Some t | model => None end;
     inlineData := None; interrupted := false |}.

(** ** PlaybackScheduler: the audio path of [onmessage] once more, on
    binary64 seconds and with the awaits of the handler

    [onmessage] is an [async] function.  A call that carries audio runs
    until [await ctx.resume()] (line 129, only when the context is
    suspended) or until [await decodeAudioData(...)] (line 135), and goes on
    when the awaited promise settles; other callbacks, later messages
    among them, run in between.  The event loop above takes a message as
    one step and counts playback time in exact units, which is enough for
    what one call does to the state.  What relates a chunk to the chunks
    and events around it is stated on the model below: the guard of line
    113 and the two blocks of lines 123-166, with the cursor, the clock and
    the durations as binary64 numbers of seconds, and with every suspended
    call kept, together with the locals it holds, until it is resumed.
    The decoder of [utils/audio] is a parameter giving the duration of the
    decoded buffer, [None] when the awaited promise rejects. *)

(** [Math.max]: NaN if either argument is NaN, and [+0] above [-0]. *)
Definition Math_max (a b : float) : float :=
  if is_nan a || is_nan b then PrimFloat.nan
  else if PrimFloat.ltb a b then b
  else if PrimFloat.ltb b a then a
  else match PrimFloat.classify a with
       | NZero => b
       | _ => a
       end.

(** The exact value of a finite binary64 number, as a mantissa and a binary
    exponent. *)
Definition exact (x : float) : option (Z * Z) :=
  match Prim2SF x with
  | S754_zero _ => Some (0, 0)
  | S754_finite s m e => Some (if s then Z.neg m else Z.pos m, e)
  | _ => None
  end.

(** [x < a + d], the sum taken exactly, without rounding. *)
Definition below_exact_sum (x a d : float) : bool :=
  match exact x, exact a, exact d with
  | Some (mx, ex), Some (ma, ea), Some (md, ed) =>
      let e := Z.min ex (Z.min ea ed) in
      mx * 2 ^ (ex - e) <? ma * 2 ^ (ea - e) + md * 2 ^ (ed - e)
  | _, _, _ => false
  end.

Module Scheduler.

(** An [AudioBufferSourceNode] after [source.start(startTime)], times in
    seconds. *)
Record Source := {
  startTime : float;
  duration : float;
  stopped : bool
}.

(** [source.stop()] *)
Definition stop (b : Source) : Source :=
  {| startTime := startTime b; duration := duration b; stopped := true |}.

(** The [await] at which a call of [onmessage] is suspended. *)
Inductive Await := AwaitResume | AwaitDecode.

(** A suspended call, with what it goes on to read: [base64Audio] and
    [message.serverContent?.interrupted]. *)
Record Handler := {
  awaiting : Await;
  base64Audio : string;
  message_interrupted : bool
}.

(** The refs that the audio path reads and writes, the buffer sources
    created so far, and the calls in flight.  [audioContextRef] holds the
    [state] of the context it names. *)
Record Player := {
  mountedRef : bool;
  audioContextRef : option CtxState;
  nextStartTimeRef : float;
  sources : list Source;
  audioQueueRef : gset nat;
  inflight : list Handler
}.

Definition set_audioContextRef (v : option CtxState) (p : Player) : Player :=
  {| mountedRef := mountedRef p; audioContextRef := v;
     nextStartTimeRef := nextStartTimeRef p; sources := sources p;
     audioQueueRef := audioQueueRef p; inflight := inflight p |}.
Definition set_nextStartTimeRef (v : float) (p : Player) : Player :=
  {| mountedRef := mountedRef p; audioContextRef := audioContextRef p;
     nextStartTimeRef := v; sources := sources p;
     audioQueueRef := audioQueueRef p; inflight := inflight p |}.
Definition set_sources (v : list Source) (p : Player) : Player :=
  {| mountedRef := mountedRef p; audioContextRef := audioContextRef p;
     nextStartTimeRef := nextStartTimeRef p; sources := v;
     audioQueueRef := audioQueueRef p; inflight := inflight p |}.
Definition set_audioQueueRef (v : gset nat) (p : Player) : Player :=
  {| mountedRef := mountedRef p; audioContextRef := audioContextRef p;
     nextStartTimeRef := nextStartTimeRef p; sources := sources p;
     audioQueueRef := v; inflight := inflight p |}.
Definition set_inflight (v : list Handler) (p : Player) : Player :=
  {| mountedRef := mountedRef p; audioContextRef := audioContextRef p;
     nextStartTimeRef := nextStartTimeRef p; sources := sources p;
     audioQueueRef := audioQueueRef p; inflight := v |}.

(** [audioQueueRef.current.forEach(source => source.stop())] *)
Definition stop_all (queue : gset nat) (h : list Source) : list Source :=
  foldr (fun src h => alter stop src h) h (elements queue).

Section Scheduler.

Variable decodeAudioData : string -> option float.

(** "Handle Interruption" (lines 157-166); [currentTime] is
    [audioContextRef.current.currentTime] as this run reads it. *)
Definition handleInterruption (currentTime : float) (interrupted : bool)
    (p : Player) : Player :=
  if interrupted then
    let p := set_sources (stop_all (audioQueueRef p) (sources p)) p in
    let p := set_audioQueueRef ∅ p in
    match audioContextRef p with
    | Some _ => set_nextStartTimeRef currentTime p
    | None => p
    end
  else p.

(** Line 132, and the call suspended at [await decodeAudioData(...)]. *)
Definition beginDecode (currentTime : float) (data : string)
    (interrupted : bool) (p : Player) : Player :=
  let p := set_nextStartTimeRef
             (Math_max (nextStartTimeRef p) currentTime) p in
  set_inflight
    (inflight p ++ [{| awaiting := AwaitDecode; base64Audio := data;
                       message_interrupted := interrupted |}]) p.

(** Lines 135-153 from the [await] on, then "Handle Interruption". *)
Definition finishDecode (currentTime : float) (h : Handler) (p : Player)
    : Player :=
  let p :=
    match decodeAudioData (base64Audio h) with
    | Some seconds =>
        let source := length (sources p) in
        let p := set_sources
                   (sources p ++ [{| startTime := nextStartTimeRef p;
                                     duration := seconds;
                                     stopped := false |}]) p in
        let p := set_nextStartTimeRef (nextStartTimeRef p + seconds)%float p in
        set_audioQueueRef ({[source]} ∪ audioQueueRef p) p
    | None => p
    end in
  handleInterruption currentTime (message_interrupted h) p.

(** [onmessage] up to its first [await], or to its end when it meets
    none.  [currentTime] is [ctx.currentTime] as this run reads it. *)
Definition onmessage (currentTime : float) (message : LiveServerMessage)
    (p : Player) : Player :=
  if negb (mountedRef p) then p
  else
    match truthy (inlineData message), audioContextRef p with
    | Some base64Audio, Some state =>
        match state with
        | suspended =>
            set_inflight
              (inflight p ++ [{| awaiting := AwaitResume;
                                 base64Audio := base64Audio;
                                 message_interrupted := interrupted message |}])
              p
        | _ => beginDecode currentTime base64Audio (interrupted message) p
        end
    | _, _ => handleInterruption currentTime (interrupted message) p
    end.

(** The promise awaited by the call in flight at index [handler] settles,
    and the call runs on, to its next [await] or to its end. *)
Definition settled (handler : nat) (currentTime : float) (p : Player)
    : Player :=
  match inflight p !! handler with
  | Some h =>
      let p := set_inflight (delete handler (inflight p)) p in
      match awaiting h with
      | AwaitResume =>
          beginDecode currentTime (base64Audio h) (message_interrupted h) p
      | AwaitDecode => finishDecode currentTime h p
      end
  | None => p
  end.

(** [source.onended]: [audioQueueRef.current.delete(source)] *)
Definition onended (source : nat) (p : Player) : Player :=
  set_audioQueueRef (audioQueueRef p ∖ {[source]}) p.

(** What can happen to the player: a message arrives, an awaited promise
    settles, a source finishes playing, the browser suspends or runs the
    context. *)
Inductive Event :=
  | Message (currentTime : float) (message : LiveServerMessage)
  | Settled (handler : nat) (currentTime : float)
  | Ended (source : nat)
  | StateChange (state : CtxState).

Definition step (e : Event) (p : Player) : Player :=
  match e with
  | Message currentTime message => onmessage currentTime message p
  | Settled handler currentTime => settled handler currentTime p
  | Ended source => onended source p
  | StateChange state =>
      match audioContextRef p with
      | Some _ => set_audioContextRef (Some state) p
      | None => p
      end
  end.

Definition run (events : list Event) (p : Player) : Player :=
  fold_left (fun p e => step e p) events p.

(** *** Delivery in order

    A chunk: the clock reading that the call handling it takes at line 132
    (when its message arrives or, if the context was suspended, once it has
    resumed), its payload, the duration its payload decodes to, and the
    clock reading when the decoder has finished. *)
Record Chunk := {
  clock : float;
  payload : string;
  seconds : float;
  decoded_at : float
}.

Definition decodable (c : Chunk) : Prop :=
  payload c ≠ EmptyString /\ decodeAudioData (payload c) = Some (seconds c).

(** The message of a chunk is handled to its end before anything else
    happens: the call is the newest in flight, it is resumed if it had to
    wait for a suspended context, and resumed again when its chunk is
    decoded. *)
Definition in_turn (c : Chunk) (p : Player) : Player :=
  let call := length (inflight p) in
  let p' := onmessage (clock c) (audioMsg (payload c)) p in
  let p' := match audioContextRef p with
            | Some suspended => settled call (clock c) p'
            | _ => p'
            end in
  settled call (decoded_at c) p'.

Definition deliver (chunks : list Chunk) (p : Player) : Player :=
  fold_left (fun p c => in_turn c p) chunks p.

End Scheduler.

Definition timing (chunks : list Chunk) : list (float * float) :=
  map (fun c => (clock c, seconds c)) chunks.

(** The scheduler as the specification words it: "On receiving a decoded
    audio buffer: [startTime = max(nextStartTime, currentClockTime)];
    schedule the buffer at [startTime]; advance
    [nextStartTime = startTime + bufferDuration]." *)
Fixpoint schedule (nextStartTime : float) (chunks : list (float * float))
    : list Source :=
  match chunks with
  | [] => []
  | (currentClockTime, bufferDuration) :: rest =>
      let startTime := Math_max nextStartTime currentClockTime in
      {| startTime := startTime; duration := bufferDuration;
         stopped := false |}
      :: schedule (startTime + bufferDuration)%float rest
  end.

(** Every chunk arrives on time: the clock reading does not move the
    cursor, [max(nextStartTime, currentClockTime)] is [nextStartTime]. *)
Fixpoint on_time (nextStartTime : float) (chunks : list (float * float))
    : Prop :=
  match chunks with
  | [] => True
  | (currentClockTime, bufferDuration) :: rest =>
      Math_max nextStartTime currentClockTime = nextStartTime /\
      on_time (nextStartTime + bufferDuration)%float rest
  end.

(** The same for every chunk after the first one, whose start is where the
    sequence begins. *)
Definition later_chunks_on_time (nextStartTime : float)
    (chunks : list (float * float)) : Prop :=
  match chunks with
  | [] => True
  | (currentClockTime, bufferDuration) :: rest =>
      on_time (Math_max nextStartTime currentClockTime + bufferDuration)%float
        rest
  end.

(** Durations added to a start time one after the other, each sum rounded
    to binary64, as [nextStartTimeRef.current += audioBuffer.duration]
    does. *)
Definition accumulate (start : float) (durations : list float) : float :=
  fold_left PrimFloat.add durations start.

(** The player of a call that has just connected: mounted, the playback
    context running, nothing scheduled yet. *)
Definition connected : Player :=
  {| mountedRef := true; audioContextRef := Some running;
     nextStartTimeRef := 0%float; sources := []; audioQueueRef := ∅;
     inflight := [] |}.

End Scheduler.

(** A stand-in for the decoder on the scheduler: it fails on a payload that
    starts with [!], and otherwise every character of the payload stands
    for 2400 sample frames at 24 kHz, a tenth of a second. *)
Definition sample_seconds (data : string) : option float :=
  if String.prefix "!" data then None
  else Some (PrimFloat.of_uint63
               (Uint63.of_Z (2400 * Z.of_nat (String.length data)))
             / 24000)%float.

(** A call with one buffer of 0.6 s scheduled at 0 and still playing. *)
Definition playing : Scheduler.Player :=
  Scheduler.in_turn sample_seconds
    {| Scheduler.clock := 0; Scheduler.payload := "abcdef";
       Scheduler.seconds := 0.6; Scheduler.decoded_at := 0.01 |}
    Scheduler.connected.

(** Three chunks that each arrive before the cursor has been reached. *)
Definition timely_chunks : list Scheduler.Chunk :=
  [{| Scheduler.clock := 0; Scheduler.payload := "abc";
      Scheduler.seconds := 0.3; Scheduler.decoded_at := 0.01 |};
   {| Scheduler.clock := 0.1; Scheduler.payload := "de";
      Scheduler.seconds := 0.2; Scheduler.decoded_at := 0.11 |};
   {| Scheduler.clock := 0.45; Scheduler.payload := "fgh";
      Scheduler.seconds := 0.3; Scheduler.decoded_at := 0.46 |}].

(** A second chunk that arrives after the first one has finished playing. *)
Definition late_chunks : list Scheduler.Chunk :=
  [{| Scheduler.clock := 0; Scheduler.payload := "abc";
      Scheduler.seconds := 0.3; Scheduler.decoded_at := 0.01 |};
   {| Scheduler.clock := 10; Scheduler.payload := "de";
      Scheduler.seconds := 0.2; Scheduler.decoded_at := 10.01 |}].

(** Three chunks of 4800 frames (0.2 s) each, the first arriving when the
    clock reads 128 frames, the others on time. *)
Definition steady_chunks : list Scheduler.Chunk :=
  [{| Scheduler.clock := 128 / 24000; Scheduler.payload := "ab";
      Scheduler.seconds := 0.2; Scheduler.decoded_at := 0.01 |};
   {| Scheduler.clock := 0.1; Scheduler.payload := "cd";
      Scheduler.seconds := 0.2; Scheduler.decoded_at := 0.11 |};
   {| Scheduler.clock := 0.3; Scheduler.payload := "ef";
      Scheduler.seconds := 0.2; Scheduler.decoded_at := 0.31 |}].


(** What has been handed to [sendRealtimeInput] of a session so far. *)
Definition sent_on {Blob : Type} (session : nat) (w : World Blob) : list Blob :=
  match sessions (browser w) !! session with
  | Some s => sent s
  | None => []
  end.

(** Microphone frames reach [processor], whose callback holds
    [isMuted = false], while [sessionPromiseRef] names an open session. *)
Definition capturing {Blob : Type} (processor session : nat) (w : World Blob)
    : Prop :=
  (exists p, processors (browser w) !! processor = Some p /\
             sp_connected p = true /\ sp_isMuted p = false) /\
  sessionPromiseRef (refs w) = Some session /\
  (exists s, sessions (browser w) !! session = Some s /\ sess_open s = true).

(** Connection attempts under way or made: [startSession] calls waiting for
    the microphone, and sessions created by [ai.live.connect]. *)
Definition attempts {Blob : Type} (w : World Blob) : nat :=
  (length (pending w) + length (sessions (browser w)))%nat.

(** The end state the specification asks of a hangup: capture device
    stopped, transport connection closed, playback active set cleared. *)
Definition all_released {Blob : Type} (w : World Blob) : Prop :=
  Forall (fun m => live m = false) (streams (browser w)) /\
  Forall (fun s => sess_open s = false) (sessions (browser w)) /\
  audioQueueRef (refs w) = ∅.

(** The user hanging up: [handleHangup], and the unmount that follows
    [App] leaving the [CALLING] state. *)
Definition hangup {Blob : Type} (w : World Blob) : World Blob :=
  unmount (handleHangup w).

(** ** Invariants of the event loop *)

(** Every source of the active set has been started and not stopped. *)
Definition queue_live {Blob : Type} (w : World Blob) : Prop :=
  forall src, src ∈ audioQueueRef (refs w) ->
    exists b, bufferSources (browser w) !! src = Some b /\ stopped b = false.

(** A volume level the visualizer can take: NaN, or at most 1. *)
Definition capped (v : float) : Prop :=
  is_nan v = true \/ v = 1%float \/ PrimFloat.ltb v 1%float = true.

(** The audio context ref, when set, names a context created at index [n]
    or later. *)
Definition context_ref_from {Blob : Type} (n : nat) (w : World Blob) : Prop :=
  (n <= length (contexts (browser w)))%nat /\
  forall k, audioContextRef (refs w) = Some k -> (n <= k)%nat.

(** ** Reading a transcript *)

(** No two neighbours of a sequence of roles are the same role. *)
Fixpoint no_repeat (rs : list Role) : Prop :=
  match rs with
  | r1 :: rest =>
      match rest with
      | r2 :: _ => r1 ≠ r2 /\ no_repeat rest
      | [] => True
      end
  | [] => True
  end.

(** Everything role [r] says in a transcript, in order. *)
Fixpoint said (r : Role) (l : list ChatMessage) : string :=
  match l with
  | [] => EmptyString
  | m :: rest => if decide (role m = r) then text m +:+ said r rest
                 else said r rest
  end.

(** Everything role [r] says in a sequence of deltas, in order. *)
Fixpoint spoken (r : Role) (deltas : list (Role * string * Z)) : string :=
  match deltas with
  | [] => EmptyString
  | d :: rest => if decide (d.1.1 = r) then d.1.2 +:+ spoken r rest
                 else spoken r rest
  end.

(** ** types.ts, the remaining interfaces *)

Inductive CallMode := TEXT | VOICE.

Record Persona := {
  id : string;
  name : string;
  title : string;
  companySize : string;
  industry : string;
  motivation : string;
  painPoints : string;
  communicationStyle : string;
  difficulty : Z;
  avatarColor : string
}.

Record EvaluationMetrics := {
  openingScore : Z;
  discoveryScore : Z;
  pitchScore : Z;
  objectionHandlingScore : Z;
  closingScore : Z;
  totalScore : Z;
  goodPoints : list string;
  improvementPoints : list string;
  nextSteps : list string
}.

(** ** services/gemini.ts: [generatePersonas] and [evaluateSession]
    (lines 58-160) *)

(** A value that TypeScript types as [A]: the parsed reply of the model,
    cast without a check, or a value the code builds itself. *)
Inductive Unchecked (Json A : Type) :=
  | Parsed (json : Json)
  | Built (a : A).
Arguments Parsed {Json A} json.
Arguments Built {Json A} a.

(** What the code builds itself is an object or an array, hence truthy. *)
Global Instance Unchecked_truthy {Json A : Type} `{!Truthy Json}
    : Truthy (Unchecked Json A) :=
  fun v => match v with
           | Parsed json => is_truthy json
           | Built _ => true
           end.

(** [Array.prototype.join] on strings. *)
Definition join (sep : string) (l : list string) : string :=
  match l with
  | [] => EmptyString
  | x :: rest => fold_left (fun acc y => acc +:+ sep +:+ y) rest x
  end.

Definition role_string (r : Role) : string :=
  match r with user => "user" | model => "model" end.

(** [transcript.map(m => `${m.role}: ${m.text}`).join('\n')] *)
Definition transcriptText (transcript : list ChatMessage) : string :=
  join newline
    (map (fun m => role_string (role m) +:+ ": " +:+ text m) transcript).

(** The template of lines 60-70, given the three texts it interpolates. *)
Definition personas_prompt (companyName description sellingPoints : string)
    : string :=
  newline +:+
  "    Basert på følgende produkt/bedrift:" +:+ newline +:+
  "    Navn: " +:+ companyName +:+ newline +:+
  "    Beskrivelse: " +:+ description +:+ newline +:+
  "    Salgsargumenter: " +:+ sellingPoints +:+ newline +:+
  newline +:+
  "    Generer 4 ulike " +:+ quote +:+ "sales personas" +:+ quote +:+
  " som en selger kan trene på å ringe til." +:+ newline +:+
  "    Varier vanskelighetsgrad (difficulty) fra 1 til 5." +:+ newline +:+
  "    " +:+ newline +:+
  "    Returner en liste i JSON format." +:+ newline +:+
  "  ".

(** The template of lines 114-124, given the texts it interpolates. *)
Definition evaluation_prompt (companyName name title transcriptText : string)
    : string :=
  newline +:+
  "    Evaluer denne salgssamtalen." +:+ newline +:+
  "    " +:+ newline +:+
  "    Selger (User) prøver å selge " +:+ companyName +:+ " til " +:+
  name +:+ " (" +:+ title +:+ ")." +:+ newline +:+
  "    " +:+ newline +:+
  "    Transkripsjon:" +:+ newline +:+
  "    " +:+ transcriptText +:+ newline +:+
  newline +:+
  "    Gi en score fra 0-100 på hver kategori og gi konstruktiv tilbakemelding."
  +:+ newline +:+
  "    Svar på norsk." +:+ newline +:+
  "  ".

Section GeminiMore.

(** The product and the persona reach these functions as the rest of the
    application stored them: a value built by the code, or a parsed reply
    cast without a check.  On a parsed value, [property_text json key] is
    the interpolation [`${json.key}`] and [property_join json key sep] is
    [`${json.key.join(sep)}`]: a text, or the [TypeError] of reading a
    property of [null], or of calling a [join] that is not there. *)
Context {Json : Type}.
Variable getClient : Completion unit.
Variable generateContent : string -> Completion (option string).
Variable JSON_parse : string -> Completion Json.
Variable property_text : Json -> string -> Completion string.
Variable property_join : Json -> string -> string -> Completion string.

(** The prompt of [generatePersonas] (lines 60-70), evaluated left to
    right. *)
Definition personas_template (product : Extracted Json) : Completion string :=
  match product with
  | Literal p =>
      Return (personas_prompt (companyName p) (description p)
                (join ", " (sellingPoints p)))
  | FromModel json =>
      bind (property_text json "companyName") (fun companyName =>
      bind (property_text json "description") (fun description =>
      bind (property_join json "sellingPoints" ", ") (fun sellingPoints =>
      Return (personas_prompt companyName description sellingPoints))))
  end.

Definition generatePersonas (product : Extracted Json)
    : Completion (Unchecked Json (list Persona)) :=
  bind getClient (fun ai =>
  bind (personas_template product) (fun prompt =>
  try_catch
    (bind (generateContent prompt) (fun response_text =>
       match truthy response_text with
       | Some t => bind (JSON_parse t) (fun json => Return (Parsed json))
       | None => Return (Built [])
       end))
    (fun error => Return (Built [])))).

(** The prompt of [evaluateSession] (lines 112-124). *)
Definition evaluation_template (transcript : list ChatMessage)
    (product : Extracted Json) (persona : Unchecked Json Persona)
    : Completion string :=
  let transcriptText := transcriptText transcript in
  bind (match product with
        | Literal p => Return (companyName p)
        | FromModel json => property_text json "companyName"
        end) (fun companyName =>
  bind (match persona with
        | Built p => Return (name p)
        | Parsed json => property_text json "name"
        end) (fun name =>
  bind (match persona with
        | Built p => Return (title p)
        | Parsed json => property_text json "title"
        end) (fun title =>
  Return (evaluation_prompt companyName name title transcriptText)))).

Definition evaluateSession (transcript : list ChatMessage)
    (product : Extracted Json) (persona : Unchecked Json Persona)
    : Completion (Unchecked Json EvaluationMetrics) :=
  bind getClient (fun ai =>
  bind (evaluation_template transcript product persona) (fun prompt =>
  try_catch
    (bind (generateContent prompt) (fun response_text =>
       match truthy response_text with
       | Some t => bind (JSON_parse t) (fun json => Return (Parsed json))
       | None => Throw "Evaluation failed"
       end))
    (fun error =>
       Return (Built
         {| openingScore := 0; discoveryScore := 0; pitchScore := 0;
            objectionHandlingScore := 0; closingScore := 0; totalScore := 0;
            goodPoints := ["Kunne ikke evaluere"]; improvementPoints := [];
            nextSteps := [] |})))).

End GeminiMore.

(** ** App.tsx, with the state cell of [EvaluationResult]

    [App] stores the product context, the persona and the transcript and
    hands them on without looking inside, so their types are parameters;
    its render conditions test them with [&&], so each type comes with its
    truthiness.
    [EvaluationResult] (lines 13-33, 126-133) is mounted while [App] shows
    the evaluation: its [evaluation] cell starts at [null], its effect calls
    [evaluateSession] unless the transcript is empty, and its "Start Ny Økt"
    button is rendered only once [evaluation] is set. *)
Module Shell.
Section Shell.

Context {Product Persona Metrics : Type}.
Context `{!Truthy Product, !Truthy Persona, !Truthy Metrics}.

Record Model := {
  state : AppState;
  productContext : option Product;
  selectedPersona : option Persona;
  callTranscript : list ChatMessage;
  callMode : CallMode;
  evaluation : option Metrics;
  evaluating : bool
}.

(** The component [App] renders in its main area (lines 72-120). *)
Inductive Screen :=
  | UrlAnalyzerScreen
  | PersonaSelectorScreen (product : Product)
  | CallInterfaceScreen (persona : Persona) (product : Product)
  | ChatSessionScreen (persona : Persona) (product : Product)
  | EvaluationLoading
  | EvaluationShown (result : Metrics)
  | Blank.

(** [state === ... && selectedPersona && productContext && (...)]: a cell
    that is [null] or holds a falsy value renders nothing.  The loading view
    of [EvaluationResult] is what [!evaluation] selects. *)
Definition view (m : Model) : Screen :=
  match state m with
  | SETUP => UrlAnalyzerScreen
  | PERSONA_SELECTION =>
      match productContext m with
      | Some product =>
          if is_truthy product then PersonaSelectorScreen product else Blank
      | None => Blank
      end
  | CALLING =>
      match selectedPersona m, productContext m with
      | Some persona, Some product =>
          if is_truthy persona && is_truthy product then
            match callMode m with
            | VOICE => CallInterfaceScreen persona product
            | TEXT => ChatSessionScreen persona product
            end
          else Blank
      | _, _ => Blank
      end
  | EVALUATION =>
      match selectedPersona m, productContext m with
      | Some persona, Some product =>
          if is_truthy persona && is_truthy product then
            match evaluation m with
            | Some result =>
                if is_truthy result then EvaluationShown result
                else EvaluationLoading
            | None => EvaluationLoading
            end
          else Blank
      | _, _ => Blank
      end
  | HISTORY => Blank
  end.

(** [handleProductAnalyzed] (lines 16-19) *)
Definition handleProductAnalyzed (data : Product) (m : Model) : Model :=
  {| state := PERSONA_SELECTION; productContext := Some data;
     selectedPersona := selectedPersona m; callTranscript := callTranscript m;
     callMode := callMode m; evaluation := evaluation m;
     evaluating := evaluating m |}.

(** [handlePersonaSelected] (lines 21-27) *)
Definition handlePersonaSelected (persona : Persona) (m : Model) : Model :=
  {| state := CALLING; productContext := productContext m;
     selectedPersona := Some persona; callTranscript := callTranscript m;
     callMode := callMode m; evaluation := evaluation m;
     evaluating := evaluating m |}.

(** [handleEndCall] (lines 29-32), followed by the mount of
    [EvaluationResult] and its effect [runEval]. *)
Definition handleEndCall (transcript : list ChatMessage) (m : Model) : Model :=
  {| state := EVALUATION; productContext := productContext m;
     selectedPersona := selectedPersona m; callTranscript := transcript;
     callMode := callMode m; evaluation := None;
     evaluating := match transcript with [] => false | _ => true end |}.

(** [handleRestart] (lines 34-38) *)
Definition handleRestart (m : Model) : Model :=
  {| state := PERSONA_SELECTION; productContext := productContext m;
     selectedPersona := None; callTranscript := [];
     callMode := callMode m; evaluation := evaluation m;
     evaluating := evaluating m |}.

(** The inline callbacks [onBack] and [onCancel], and [setCallMode]. *)
Definition setState (s : AppState) (m : Model) : Model :=
  {| state := s; productContext := productContext m;
     selectedPersona := selectedPersona m; callTranscript := callTranscript m;
     callMode := callMode m; evaluation := evaluation m;
     evaluating := evaluating m |}.

Definition setCallMode (mode : CallMode) (m : Model) : Model :=
  {| state := state m; productContext := productContext m;
     selectedPersona := selectedPersona m; callTranscript := callTranscript m;
     callMode := mode; evaluation := evaluation m;
     evaluating := evaluating m |}.

(** [setEvaluation(res)] when [evaluateSession] resolves. *)
Definition setEvaluation (res : Metrics) (m : Model) : Model :=
  {| state := state m; productContext := productContext m;
     selectedPersona := selectedPersona m; callTranscript := callTranscript m;
     callMode := callMode m; evaluation := Some res;
     evaluating := false |}.

(** What the children and the navbar can call, each only while the screen
    that holds it is rendered. *)
Inductive Event :=
  | OnComplete (data : Product)
  | OnSelect (persona : Persona)
  | OnBack
  | OnEndCall (transcript : list ChatMessage)
  | OnCancel
  | SetCallMode (mode : CallMode)
  | EvaluationResolved (res : Metrics)
  | OnRestart.

Definition step (e : Event) (m : Model) : Model :=
  match e, view m with
  | OnComplete data, UrlAnalyzerScreen => handleProductAnalyzed data m
  | OnSelect persona, PersonaSelectorScreen _ => handlePersonaSelected persona m
  | OnBack, PersonaSelectorScreen _ => setState SETUP m
  | OnEndCall transcript, (CallInterfaceScreen _ _ | ChatSessionScreen _ _) =>
      handleEndCall transcript m
  | OnCancel, CallInterfaceScreen _ _ => setState PERSONA_SELECTION m
  | SetCallMode mode, _ =>
      match state m with CALLING => setCallMode mode m | _ => m end
  | EvaluationResolved res, EvaluationLoading =>
      if evaluating m then setEvaluation res m else m
  | OnRestart, EvaluationShown _ => handleRestart m
  | _, _ => m
  end.

Definition run (events : list Event) (m : Model) : Model :=
  fold_left (fun m e => step e m) events m.

(** [App]'s initial state (lines 10-14). *)
Definition initial : Model :=
  {| state := SETUP; productContext := None; selectedPersona := None;
     callTranscript := []; callMode := VOICE; evaluation := None;
     evaluating := false |}.

(** A cell that holds a value passing the [&&] test. *)
Definition usable {A : Type} `{!Truthy A} (cell : option A) : Prop :=
  exists a, cell = Some a /\ is_truthy a = true.

(** The screens that need a product have one, those that need a persona
    have one, and [HISTORY] is not entered. *)
Definition well_formed (m : Model) : Prop :=
  match state m with
  | SETUP => True
  | PERSONA_SELECTION => usable (productContext m)
  | CALLING | EVALUATION =>
      usable (productContext m) /\ usable (selectedPersona m)
  | HISTORY => False
  end.


End Shell.
End Shell.

(** ** UrlAnalyzer.tsx: [handleSubmit] (lines 14-25) *)

Record UrlAnalyzerState := {
  ua_url : string;
  ua_manualText : string;
  ua_loading : bool
}.

Section UrlAnalyzer.

Context {Json Persona Metrics : Type}.
Context `{!Truthy Json, !Truthy Persona, !Truthy Metrics}.
Variable getClient : Completion unit.
Variable generateContent : string -> Completion (option string).
Variable JSON_parse : string -> Completion Json.

(** The form state, [App]'s state and the alerts shown, after the whole of
    [handleSubmit] has run. *)
Definition handleSubmit (u : UrlAnalyzerState)
    (m : @Shell.Model (Extracted Json) Persona Metrics)
    : UrlAnalyzerState * @Shell.Model (Extracted Json) Persona Metrics *
      list string :=
  let loading := true in
  let tried :=
    try_catch
      (bind (extractProductInfo getClient generateContent JSON_parse
               (ua_url u) (ua_manualText u))
         (fun data => Return (Shell.handleProductAnalyzed data m, [])))
      (fun err => Return (m, ["Noe gikk galt under analysen. Prøv igjen."])) in
  let loading := false in
  match tried with
  | Return (m', alerts) =>
      ({| ua_url := ua_url u; ua_manualText := ua_manualText u;
          ua_loading := loading |}, m', alerts)
  | Throw _ =>
      ({| ua_url := ua_url u; ua_manualText := ua_manualText u;
          ua_loading := loading |}, m, [])
  end.

End UrlAnalyzer.

(** ** ChatSession.tsx: the text chat (lines 13-82)

    [String.prototype.trim] is a parameter.  [awaiting] lists the
    [sendMessage] calls whose [await] has not returned yet. *)
Module Chat.
Section Chat.

Variable trim : string -> string.

Inductive Request := Greeting | Reply.

Record State := {
  messages : list ChatMessage;
  input : string;
  isLoading : bool;
  awaiting : list Request
}.

(** The component after its first effect: [start()] has set [isLoading]
    and awaits the greeting. *)
Definition mount : State :=
  {| messages := []; input := EmptyString; isLoading := true;
     awaiting := [Greeting] |}.

Definition setInput (v : string) (s : State) : State :=
  {| messages := messages s; input := v; isLoading := isLoading s;
     awaiting := awaiting s |}.

(** [handleSend] up to its [await] (lines 61-69). *)
Definition handleSend (dateNow : Z) (s : State) : State :=
  if decide (trim (input s) = EmptyString) then s
  else if isLoading s then s
  else
    let userMsg := {| role := user; text := input s; timestamp := dateNow |} in
    {| messages := messages s ++ [userMsg]; input := EmptyString;
       isLoading := true; awaiting := awaiting s ++ [Reply] |}.

(** The oldest awaited [sendMessage] resolves with [res?.text]; the
    [finally] block clears [isLoading]. *)
Definition resolved (res_text : option string) (dateNow : Z) (s : State)
    : State :=
  match awaiting s with
  | [] => s
  | Greeting :: rest =>
      {| messages :=
           match truthy res_text with
           | Some t => [{| role := model; text := t; timestamp := dateNow |}]
           | None => messages s
           end;
         input := input s; isLoading := false; awaiting := rest |}
  | Reply :: rest =>
      {| messages :=
           match truthy res_text with
           | Some t =>
               messages s ++
               [{| role := model; text := t; timestamp := dateNow |}]
           | None => messages s
           end;
         input := input s; isLoading := false; awaiting := rest |}
  end.

(** The oldest awaited [sendMessage] rejects: nothing is added, and the
    [finally] block clears [isLoading]. *)
Definition rejected (s : State) : State :=
  match awaiting s with
  | [] => s
  | _ :: rest =>
      {| messages := messages s; input := input s; isLoading := false;
         awaiting := rest |}
  end.

Inductive Event :=
  | Change (v : string)
  | Submit (dateNow : Z)
  | Resolved (res_text : option string) (dateNow : Z)
  | Rejected.

Definition step (e : Event) (s : State) : State :=
  match e with
  | Change v => setInput v s
  | Submit dateNow => handleSend dateNow s
  | Resolved res_text dateNow => resolved res_text dateNow s
  | Rejected => rejected s
  end.

Definition run (events : list Event) (s : State) : State :=
  fold_left (fun s e => step e s) events s.

(** At most one request is awaited, [isLoading] says whether one is, the
    greeting is awaited on an empty transcript only, and no user message is
    blank. *)
Definition invariant (s : State) : Prop :=
  (awaiting s = [] /\ isLoading s = false \/
   (exists r, awaiting s = [r]) /\ isLoading s = true) /\
  (awaiting s = [Greeting] -> messages s = []) /\
  Forall (fun m => role m = user -> trim (text m) ≠ EmptyString) (messages s).

End Chat.
End Chat.

(** ** More worked states *)

(** A connected call whose transport has reported an error. *)
Definition failed_call : World (list float) :=
  step sample_encode sample_decode (SessionError 0%nat) connected_call.

(** [App] with a product analysed and a persona picked, in a call. *)
Definition app_in_call : @Shell.Model string string string :=
  Shell.run [Shell.OnComplete "produkt"; Shell.OnSelect "kunde"] Shell.initial.

(** * Properties *)

(** ** TranscriptAssembler *)

Lemma updateTranscript_same_role (init : list ChatMessage) (m : ChatMessage)
    (t : string) (now : Z) :
  updateTranscript (role m) t now (init ++ [m]) =
  init ++ [{| role := role m; text := text m +:+ t;
              timestamp := timestamp m |}].
Proof.
  unfold updateTranscript.
  replace (length (init ++ [m]) - 1)%nat with (length init + 0)%nat
    by (rewrite length_app; simpl; lia).
  rewrite lookup_app_r by lia.
  replace (length init + 0 - length init)%nat with 0%nat by lia. simpl.
  rewrite decide_True by reflexivity.
  rewrite insert_app_r. reflexivity.
Qed.

Lemma updateTranscript_other_role (init : list ChatMessage) (m : ChatMessage)
    (r : Role) (t : string) (now : Z) :
  role m ≠ r ->
  updateTranscript r t now (init ++ [m]) =
  init ++ [m; {| role := r; text := t; timestamp := now |}].
Proof.
  intros Hr. unfold updateTranscript.
  replace (length (init ++ [m]) - 1)%nat with (length init + 0)%nat
    by (rewrite length_app; simpl; lia).
  rewrite lookup_app_r by lia.
  replace (length init + 0 - length init)%nat with 0%nat by lia. simpl.
  rewrite decide_False by assumption.
  rewrite <- app_assoc. reflexivity.
Qed.

(** C3.  A delta of the role of the most recent message is concatenated onto
    that message's text; a delta of another role, or one arriving on an
    empty transcript, starts a new message holding the delta and the current
    timestamp.  Deltas with roles [A; A; B; A], for two different roles,
    give exactly three messages, with texts [a1 ++ a2], [b] and [a3], in
    arrival order. *)
Theorem transcript_assembly (A B : Role) (a1 a2 b a3 : string)
    (t1 t2 t3 t4 : Z) :
  A ≠ B ->
  (forall init m t now,
     updateTranscript (role m) t now (init ++ [m]) =
     init ++ [{| role := role m; text := text m +:+ t;
                 timestamp := timestamp m |}]) /\
  (forall init m r t now,
     role m ≠ r ->
     updateTranscript r t now (init ++ [m]) =
     init ++ [m; {| role := r; text := t; timestamp := now |}]) /\
  (forall r t now,
     updateTranscript r t now [] =
     [{| role := r; text := t; timestamp := now |}]) /\
  assemble [(A, a1, t1); (A, a2, t2); (B, b, t3); (A, a3, t4)] [] =
  [{| role := A; text := a1 +:+ a2; timestamp := t1 |};
   {| role := B; text := b; timestamp := t3 |};
   {| role := A; text := a3; timestamp := t4 |}].
Proof.
  intros HAB. split; [|split; [|split]].
  - apply updateTranscript_same_role.
  - apply updateTranscript_other_role.
  - reflexivity.
  - unfold assemble. simpl.
    change (updateTranscript A a1 t1 [])
      with ([] ++ [{| role := A; text := a1; timestamp := t1 |}]).
    rewrite (updateTranscript_same_role []
               {| role := A; text := a1; timestamp := t1 |}).
    rewrite (updateTranscript_other_role []
               {| role := A; text := a1 +:+ a2; timestamp := t1 |})
      by exact HAB.
    change ([] ++ [{| role := A; text := a1 +:+ a2; timestamp := t1 |};
                   {| role := B; text := b; timestamp := t3 |}])
      with ([{| role := A; text := a1 +:+ a2; timestamp := t1 |}] ++
            [{| role := B; text := b; timestamp := t3 |}]).
    rewrite (updateTranscript_other_role
               [{| role := A; text := a1 +:+ a2; timestamp := t1 |}]
               {| role := B; text := b; timestamp := t3 |})
      by (simpl; congruence).
    reflexivity.
Qed.

(** ** The audio path of one message *)

Section Playback.

Context {Blob : Type}.
Variable decodeAudioData : string -> option AudioBuffer.

Lemma truthy_nonempty (s : string) : s ≠ EmptyString -> truthy (Some s) = Some s.
Proof. intros Hs. unfold truthy. rewrite decide_False by exact Hs. reflexivity. Qed.


Lemma handleTranscription_frame (dateNow : Z) (m : LiveServerMessage)
    (w : World Blob) :
  let w' := handleTranscription dateNow m w in
  refs w' = refs w /\ browser w' = browser w /\ app w' = app w /\
  pending w' = pending w /\
  status (ui w') = status (ui w) /\ errorMsg (ui w') = errorMsg (ui w) /\
  isMuted (ui w') = isMuted (ui w) /\ volumeLevel (ui w') = volumeLevel (ui w).
Proof.
  unfold handleTranscription.
  destruct (truthy (outputTranscription m)), (truthy (inputTranscription m));
    cbn; repeat split; reflexivity.
Qed.

Lemma handleAudioOutput_frame (now : Z) (m : LiveServerMessage)
    (w : World Blob) :
  let w' := handleAudioOutput decodeAudioData now m w in
  mountedRef (refs w') = mountedRef (refs w) /\
  audioContextRef (refs w') = audioContextRef (refs w) /\
  ui w' = ui w /\ app w' = app w /\ pending w' = pending w /\
  audioQueueRef (refs w) ⊆ audioQueueRef (refs w') /\
  (forall src b,
     bufferSources (browser w) !! src = Some b ->
     bufferSources (browser w') !! src = Some b).
Proof.
  unfold handleAudioOutput.
  destruct (truthy (inlineData m)) as [data|];
    [destruct (audioContextRef (refs w)) as [c|] eqn:Hc;
       [destruct (decodeAudioData data) as [buf|]|]|];
    cbn; rewrite ?Hc; repeat split; try reflexivity; try set_solver.
  intros src b Hb. apply lookup_app_l_Some. exact Hb.
Qed.

(** *** Decode failures *)



End Playback.

(** ** PlaybackScheduler on binary64 *)

Lemma SFltb_irrefl (x : spec_float) : SFltb x x = false.
Proof.
  unfold SFltb. destruct x as [s|s| |s m e]; cbn; try destruct s;
    try reflexivity.
  all: rewrite Z.compare_refl, Pos.compare_cont_refl; reflexivity.
Qed.

Lemma SFltb_asym (x y : spec_float) : SFltb x y = true -> SFltb y x = false.
Proof.
  unfold SFltb.
  destruct x as [sx|sx| |sx mx ex], y as [sy|sy| |sy my ey]; cbn;
    try destruct sx; try destruct sy; try discriminate; try reflexivity.
  all: rewrite (Z.compare_antisym ex ey);
    destruct (ex ?= ey)%Z; cbn; try discriminate; try reflexivity.
  all: pose proof (Pos.compare_cont_antisym mx my Eq) as H; cbn in H;
    rewrite <- H; destruct (Pos.compare_cont Eq mx my); cbn;
    try discriminate; reflexivity.
Qed.

Lemma ltb_irrefl (x : float) : PrimFloat.ltb x x = false.
Proof. rewrite FloatAxioms.ltb_spec. apply SFltb_irrefl. Qed.

Lemma ltb_asym (x y : float) :
  PrimFloat.ltb x y = true -> PrimFloat.ltb y x = false.
Proof. rewrite !FloatAxioms.ltb_spec. apply SFltb_asym. Qed.

Lemma ltb_nan_l (y : float) : PrimFloat.ltb PrimFloat.nan y = false.
Proof. rewrite FloatAxioms.ltb_spec. reflexivity. Qed.

(** [Math.max(a, b)] is never below [a]. *)
Lemma Math_max_not_below (a b : float) :
  PrimFloat.ltb (Math_max a b) a = false.
Proof.
  unfold Math_max. destruct (is_nan a || is_nan b); [apply ltb_nan_l|].
  destruct (PrimFloat.ltb a b) eqn:Hab; [apply ltb_asym; exact Hab|].
  destruct (PrimFloat.ltb b a) eqn:Hba; [apply ltb_irrefl|].
  destruct (PrimFloat.classify a); first [apply ltb_irrefl | exact Hba].
Qed.

(** [Math.max(a, b)] is never below [b]. *)
Lemma Math_max_not_below_r (a b : float) :
  PrimFloat.ltb (Math_max a b) b = false.
Proof.
  unfold Math_max. destruct (is_nan a || is_nan b); [apply ltb_nan_l|].
  destruct (PrimFloat.ltb a b) eqn:Hab; [apply ltb_irrefl|].
  destruct (PrimFloat.ltb b a) eqn:Hba; [exact Hab|].
  destruct (PrimFloat.classify a); first [exact Hab | apply ltb_irrefl].
Qed.

Section SchedulerProperties.

Import Scheduler.

Variable decodeAudioData : string -> option float.

Local Abbreviation settled := (Scheduler.settled decodeAudioData).
Local Abbreviation in_turn := (Scheduler.in_turn decodeAudioData).
Local Abbreviation deliver := (Scheduler.deliver decodeAudioData).
Local Abbreviation decodable := (Scheduler.decodable decodeAudioData).

Lemma inflight_newest (hs : list Handler) (h : Handler) :
  (hs ++ [h]) !! length hs = Some h /\ delete (length hs) (hs ++ [h]) = hs.
Proof.
  split.
  - rewrite lookup_app_r by lia. rewrite Nat.sub_diag. reflexivity.
  - induction hs as [|x hs IH]; [reflexivity|]. cbn. f_equal. exact IH.
Qed.

(** One decodable chunk handled in turn: what it leaves behind. *)
Lemma scheduler_in_turn (p : Player) (state : CtxState) (c : Chunk) :
  mountedRef p = true ->
  audioContextRef p = Some state ->
  decodable c ->
  let p' := in_turn c p in
  let start := Math_max (nextStartTimeRef p) (clock c) in
  mountedRef p' = true /\ audioContextRef p' = Some state /\
  inflight p' = inflight p /\
  nextStartTimeRef p' = (start + seconds c)%float /\
  sources p' =
    sources p ++
    [{| startTime := start; duration := seconds c; stopped := false |}] /\
  audioQueueRef p' = {[length (sources p)]} ∪ audioQueueRef p.
Proof.
  intros Hm Hc [Hdata Hdec].
  destruct (inflight_newest (inflight p)
              {| awaiting := AwaitDecode; base64Audio := payload c;
                 message_interrupted := false |}) as [Hlook Hdel].
  destruct (inflight_newest (inflight p)
              {| awaiting := AwaitResume; base64Audio := payload c;
                 message_interrupted := false |}) as [Hlook' Hdel'].
  assert (Hbegin :
    match audioContextRef p with
    | Some suspended =>
        settled (length (inflight p)) (clock c)
          (onmessage (clock c) (audioMsg (payload c)) p)
    | _ => onmessage (clock c) (audioMsg (payload c)) p
    end = beginDecode (clock c) (payload c) false p).
  { unfold Scheduler.onmessage, audioMsg.
    cbn [inlineData interrupted]. rewrite Hm, truthy_nonempty, Hc by exact Hdata.
    destruct state; try reflexivity.
    unfold Scheduler.settled. cbn [negb inflight set_inflight].
    rewrite Hlook'. cbn [awaiting base64Audio message_interrupted].
    rewrite Hdel'. destruct p; reflexivity. }
  unfold Scheduler.in_turn. cbv zeta. rewrite Hbegin.
  unfold Scheduler.settled, beginDecode.
  cbn [inflight set_inflight set_nextStartTimeRef]. rewrite Hlook.
  cbn [awaiting]. unfold finishDecode. cbn [base64Audio message_interrupted].
  rewrite Hdec. cbn. rewrite Hdel. repeat split; assumption.
Qed.

Lemma deliver_schedule (chunks : list Chunk) :
  forall (p : Player) (state : CtxState),
    mountedRef p = true ->
    audioContextRef p = Some state ->
    Forall decodable chunks ->
    let p' := deliver chunks p in
    sources p' = sources p ++ schedule (nextStartTimeRef p) (timing chunks) /\
    inflight p' = inflight p /\ mountedRef p' = true /\
    audioContextRef p' = Some state.
Proof.
  induction chunks as [|c chunks IH]; intros p state Hm Hc Hall; simpl.
  - rewrite app_nil_r. auto.
  - inversion Hall as [|? ? Hdec Hrest]; subst.
    destruct (scheduler_in_turn p state c Hm Hc Hdec)
      as (Hm' & Hc' & Hfl & Hnext & Hsrc & _).
    destruct (IH _ state Hm' Hc' Hrest) as (IHsrc & IHfl & IHm & IHc).
    unfold Scheduler.deliver in *. cbn [fold_left].
    rewrite IHsrc, IHfl, Hsrc, Hnext, Hfl, <- app_assoc. auto.
Qed.

Lemma schedule_not_before (cs : list (float * float)) :
  forall next i bi bj,
    schedule next cs !! i = Some bi ->
    schedule next cs !! S i = Some bj ->
    PrimFloat.ltb (startTime bj) (startTime bi + duration bi)%float = false.
Proof.
  induction cs as [|[now d] cs IH]; intros next i bi bj Hi Hj.
  - destruct i; discriminate.
  - destruct i as [|i].
    + cbn in Hi. injection Hi as <-. cbn [startTime duration].
      destruct cs as [|[now' d'] cs]; [discriminate|].
      cbn in Hj. injection Hj as <-. apply Math_max_not_below.
    + exact (IH _ i bi bj Hi Hj).
Qed.

Lemma schedule_not_in_the_past (cs : list (float * float)) :
  forall next i c b,
    cs !! i = Some c -> schedule next cs !! i = Some b ->
    PrimFloat.ltb (startTime b) c.1 = false /\ duration b = c.2.
Proof.
  induction cs as [|[now d] cs IH]; intros next i c b Hc Hb.
  - destruct i; discriminate.
  - destruct i as [|i].
    + cbn in Hc, Hb. injection Hc as <-. injection Hb as <-.
      split; [apply Math_max_not_below_r|reflexivity].
    + exact (IH _ i c b Hc Hb).
Qed.

Lemma schedule_on_time_next (cs : list (float * float)) :
  forall next i bi bj,
    on_time next cs ->
    schedule next cs !! i = Some bi ->
    schedule next cs !! S i = Some bj ->
    startTime bj = (startTime bi + duration bi)%float.
Proof.
  induction cs as [|[now d] cs IH]; intros next i bi bj Hon Hi Hj.
  - destruct i; discriminate.
  - destruct Hon as [Hnow Hon]. cbn [schedule] in Hi, Hj. rewrite Hnow in Hi, Hj.
    destruct i as [|i].
    + cbn in Hi. injection Hi as <-. cbn [startTime duration].
      destruct cs as [|[now' d'] cs]; [discriminate|].
      destruct Hon as [Hnow' _]. cbn in Hj. injection Hj as <-.
      exact Hnow'.
    + exact (IH _ i bi bj Hon Hi Hj).
Qed.

Lemma schedule_on_time (cs : list (float * float)) :
  forall next i b,
    on_time next cs ->
    schedule next cs !! i = Some b ->
    startTime b = accumulate next (take i (map snd cs)).
Proof.
  induction cs as [|[now d] cs IH]; intros next i b Hon Hb.
  - destruct i; discriminate.
  - destruct Hon as [Hnow Hon]. cbn [schedule] in Hb. rewrite Hnow in Hb.
    destruct i as [|i].
    + cbn in Hb. injection Hb as <-. reflexivity.
    + cbn in Hb. rewrite (IH _ _ _ Hon Hb). reflexivity.
Qed.

(** C1, as amended.  For buffers delivered in order with no interruption,
    the message of each handled to its end before the next arrives, the
    scheduler starts each one at [max(nextStartTime, currentClockTime)] and
    advances [nextStartTime] by its duration, in binary64; no buffer starts
    before the clock reading taken for it, and none before the cursor that
    the buffer before it has left, its start plus its duration as rounded.
    When every buffer after the first arrives on
    time (the clock at its arrival does not move the cursor), each starts
    exactly at that cursor, so buffer [i] starts at the first start with
    the durations [d1 .. d(i-1)] added to it one after the other, each sum
    rounded. *)
Theorem gapless_playback (p : Player) (state : CtxState)
    (chunks : list Chunk) :
  mountedRef p = true ->
  audioContextRef p = Some state ->
  Forall decodable chunks ->
  let next := nextStartTimeRef p in
  let plan := schedule next (timing chunks) in
  sources (deliver chunks p) = sources p ++ plan /\
  (forall i c b,
     chunks !! i = Some c -> plan !! i = Some b ->
     PrimFloat.ltb (startTime b) (clock c) = false /\ duration b = seconds c) /\
  (forall i bi bj,
     plan !! i = Some bi -> plan !! S i = Some bj ->
     PrimFloat.ltb (startTime bj) (startTime bi + duration bi)%float = false) /\
  (later_chunks_on_time next (timing chunks) ->
   (forall i bi bj,
      plan !! i = Some bi -> plan !! S i = Some bj ->
      startTime bj = (startTime bi + duration bi)%float) /\
   (forall i b1 bi,
      plan !! 0%nat = Some b1 -> plan !! i = Some bi ->
      startTime bi =
        accumulate (startTime b1) (take i (map snd (timing chunks))))).
Proof.
  intros Hm Hc Hall next plan. split; [|split; [|split]].
  - apply (deliver_schedule chunks p state Hm Hc Hall).
  - intros i c b Hi Hb.
    apply (schedule_not_in_the_past (timing chunks) next i (clock c, seconds c));
      [|exact Hb].
    unfold timing. rewrite list_lookup_fmap, Hi. reflexivity.
  - apply schedule_not_before.
  - subst plan. destruct (timing chunks) as [|[now d] cs]; intros Hon.
    + split; intros i; destruct i; discriminate.
    + cbn [later_chunks_on_time] in Hon. split.
      * intros i bi bj Hi Hj. destruct i as [|i].
        -- cbn in Hi. injection Hi as <-. cbn [startTime duration].
           destruct cs as [|[now' d'] cs]; [discriminate|].
           destruct Hon as [Hnow' _]. cbn in Hj. injection Hj as <-.
           exact Hnow'.
        -- exact (schedule_on_time_next cs _ i bi bj Hon Hi Hj).
      * intros i b1 bi H1 Hi. cbn in H1. injection H1 as <-.
        destruct i as [|i].
        -- cbn in Hi. injection Hi as <-. reflexivity.
        -- cbn in Hi. cbn [startTime]. rewrite (schedule_on_time cs _ _ _ Hon Hi).
           reflexivity.
Qed.

(** *** Interruption *)





End SchedulerProperties.

(** ** VoiceActivityGate and mute *)

Section Capture.

Context {Blob : Type}.
Variable createPCM16Blob : list float -> Blob.
Variable decodeAudioData : string -> option AudioBuffer.

Local Abbreviation step := (step createPCM16Blob decodeAudioData).
Local Abbreviation run := (run createPCM16Blob decodeAudioData).

Lemma run_cons (e : Event) (events : list Event) (w : World Blob) :
  run (e :: events) w = run events (step e w).
Proof. reflexivity. Qed.

Lemma audioprocess_forward (processor session : nat) (frame : list float)
    (w : World Blob) :
  capturing processor session w ->
  let w' := step (AudioProcess processor frame) w in
  sent_on session w' =
    sent_on session w ++
    (if PrimFloat.ltb 0.01%float (rms frame) then [createPCM16Blob frame]
     else []) /\
  capturing processor session w'.
Proof.
  intros ((p & Hp & Hconn & Hmute) & Hsess & (s & Hs & Hopen)).
  unfold capturing, sent_on. cbn [step]. rewrite Hp, Hconn.
  unfold onaudioprocess. rewrite Hmute. unfold VAD_THRESHOLD.
  destruct (PrimFloat.ltb 0.01%float (rms frame)); cbn; rewrite ?Hsess; cbn.
  - rewrite list_lookup_alter_eq, Hs. cbn. unfold sendRealtimeInput.
    rewrite Hopen. cbn. split; [reflexivity|]. rewrite Hp. eauto 10.
  - rewrite Hs, app_nil_r, Hp. eauto 10.
Qed.

(** C4.  While frames are captured unmuted into an open session, a frame is
    forwarded to the transport iff [rms(frame) > 0.01]; a frame whose RMS is
    exactly 0.01 is suppressed; and the decision depends on the current frame
    only: over any sequence of frames, what is sent is the encoding of
    exactly those frames that pass the gate, in order. *)
Theorem voice_activity_gate (processor session : nat) (w : World Blob) :
  capturing processor session w ->
  (forall frame,
     sent_on session (step (AudioProcess processor frame) w) =
     sent_on session w ++
     (if PrimFloat.ltb 0.01%float (rms frame) then [createPCM16Blob frame]
      else [])) /\
  (forall frame,
     rms frame = 0.01%float ->
     sent_on session (step (AudioProcess processor frame) w) =
     sent_on session w) /\
  (forall frames,
     sent_on session (run (map (AudioProcess processor) frames) w) =
     sent_on session w ++
     map createPCM16Blob
       (List.filter (fun frame => PrimFloat.ltb 0.01%float (rms frame)) frames)).
Proof.
  intros Hcap. split; [|split].
  - intros frame. apply audioprocess_forward. exact Hcap.
  - intros frame Hrms.
    rewrite (proj1 (audioprocess_forward processor session frame w Hcap)).
    rewrite Hrms. apply app_nil_r.
  - intros frames. revert w Hcap.
    induction frames as [|frame frames IH]; intros w Hcap;
      cbn [map List.filter].
    + symmetry. apply app_nil_r.
    + destruct (audioprocess_forward processor session frame w Hcap)
        as [Hsent Hcap'].
      rewrite run_cons, (IH _ Hcap'), Hsent.
      destruct (PrimFloat.ltb 0.01%float (rms frame)); cbn [map].
      * rewrite <- app_assoc. reflexivity.
      * rewrite app_nil_r. reflexivity.
Qed.

(** [toggleMute] writes the [isMuted] cell and nothing else. *)
Lemma toggleMute_frame (w : World Blob) :
  toggleMute w = upd_ui (set_isMuted (negb (isMuted (ui w)))) w /\
  refs (toggleMute w) = refs w /\ browser (toggleMute w) = browser w /\
  app (toggleMute w) = app w /\ pending (toggleMute w) = pending w /\
  status (ui (toggleMute w)) = status (ui w) /\
  transcript (ui (toggleMute w)) = transcript (ui w).
Proof. repeat split; reflexivity. Qed.

(** The [onaudioprocess] callback reads the [isMuted] it closed over, never
    the state cell: a frame is handled the same way before and after
    [toggleMute]. *)
Lemma audioprocess_ignores_toggleMute (processor : nat) (frame : list float)
    (w : World Blob) :
  step (AudioProcess processor frame) (toggleMute w) =
  toggleMute (step (AudioProcess processor frame) w).
Proof.
  cbn [step]. unfold toggleMute at 1. cbn [browser upd_ui].
  destruct (processors (browser w) !! processor) as [p|]; [|reflexivity].
  destruct (sp_connected p); [|reflexivity].
  unfold onaudioprocess. destruct (sp_isMuted p); [reflexivity|].
  destruct (PrimFloat.ltb VAD_THRESHOLD (rms frame)); cbn;
    [destruct (sessionPromiseRef (refs w))|]; reflexivity.
Qed.

End Capture.

(** ** Resource lifecycle *)

Section Lifecycle.

Context {Blob : Type}.
Variable createPCM16Blob : list float -> Blob.
Variable decodeAudioData : string -> option AudioBuffer.

Local Abbreviation step := (step createPCM16Blob decodeAudioData).

Lemma alter_idem {A : Type} (f : A -> A) (i : nat) (l : list A) :
  (forall x, f (f x) = f x) -> alter f i (alter f i l) = alter f i l.
Proof.
  intros Hf. rewrite list_alter_alter_eq.
  apply list_alter_ext; [|reflexivity]. intros x _. apply Hf.
Qed.

(** What [cleanup] leaves alone. *)
Lemma cleanup_frame (w : World Blob) :
  ui (cleanup w) = ui w /\ app (cleanup w) = app w /\
  pending (cleanup w) = pending w /\
  sessions (browser (cleanup w)) = sessions (browser w) /\
  bufferSources (browser (cleanup w)) = bufferSources (browser w) /\
  mountedRef (refs (cleanup w)) = mountedRef (refs w) /\
  streamRef (refs (cleanup w)) = streamRef (refs w) /\
  inputSourceRef (refs (cleanup w)) = inputSourceRef (refs w) /\
  nextStartTimeRef (refs (cleanup w)) = nextStartTimeRef (refs w) /\
  audioQueueRef (refs (cleanup w)) = audioQueueRef (refs w) /\
  sessionPromiseRef (refs (cleanup w)) = sessionPromiseRef (refs w).
Proof.
  destruct w as [a u [[c|] [i|] [p|] [st|] next q sp mt] b pd];
    cbn; repeat split; reflexivity.
Qed.

(** What [cleanup] releases, for whichever refs are set. *)
Lemma cleanup_releases (w : World Blob) :
  (forall st, streamRef (refs w) = Some st ->
     streams (browser (cleanup w)) !! st =
       stop_tracks <$> streams (browser w) !! st) /\
  (forall p, processorRef (refs w) = Some p ->
     processors (browser (cleanup w)) !! p =
       disconnect_processor <$> processors (browser w) !! p) /\
  (forall i, inputSourceRef (refs w) = Some i ->
     inputSources (browser (cleanup w)) !! i =
       disconnect_source <$> inputSources (browser w) !! i) /\
  (forall c, audioContextRef (refs w) = Some c ->
     contexts (browser (cleanup w)) !! c =
       close_ctx <$> contexts (browser w) !! c) /\
  processorRef (refs (cleanup w)) = None /\
  audioContextRef (refs (cleanup w)) = None.
Proof.
  destruct w as [a u [[c|] [i|] [p|] [st|] next q sp mt] b pd];
    cbn; repeat split; try reflexivity; intros x Hx;
    try discriminate; injection Hx as <-;
    apply list_lookup_alter_eq.
Qed.

(** C9.  Releasing is idempotent: a second [cleanup] changes nothing.  It is
    defined on every state of the refs, and whichever of the stream, the
    processor, the input source and the audio context had been acquired is
    stopped, disconnected or closed by it; the processor and context refs
    are cleared. *)
Theorem cleanup_idempotent (w : World Blob) :
  cleanup (cleanup w) = cleanup w /\
  (forall st, streamRef (refs w) = Some st ->
     streams (browser (cleanup w)) !! st =
       stop_tracks <$> streams (browser w) !! st) /\
  (forall p, processorRef (refs w) = Some p ->
     processors (browser (cleanup w)) !! p =
       disconnect_processor <$> processors (browser w) !! p) /\
  (forall i, inputSourceRef (refs w) = Some i ->
     inputSources (browser (cleanup w)) !! i =
       disconnect_source <$> inputSources (browser w) !! i) /\
  (forall c, audioContextRef (refs w) = Some c ->
     contexts (browser (cleanup w)) !! c =
       close_ctx <$> contexts (browser w) !! c) /\
  processorRef (refs (cleanup w)) = None /\
  audioContextRef (refs (cleanup w)) = None.
Proof.
  split; [|apply cleanup_releases].
  destruct w as [a u [[c|] [i|] [p|] [st|] next q sp mt] b pd];
    cbn; unfold upd_browser, upd_streams, upd_inputSources; cbn;
    rewrite ?alter_idem by reflexivity; reflexivity.
Qed.

(** C5, as amended.  Hanging up, in whatever state the component is, ends
    the call: [App] moves to [EVALUATION] with the transcript and the
    component is unmounted.  What is released is what the four refs name at
    that moment: the stream of [streamRef] is stopped, the processor of
    [processorRef] and the input source of [inputSourceRef] are
    disconnected (the processor's callback no longer runs), the context of
    [audioContextRef] is closed, and those two refs are cleared.  Nothing
    else is released: every stream, processor, input source and audio
    context that the refs do not name (those of an earlier attempt, and the
    16 kHz context of [setupAudioInput]) stays as it was, no session is
    closed, and the scheduled buffers and the playback active set are left
    alone.  A transport result arriving afterwards (open, message or error)
    is discarded. *)
Theorem hangup_releases_what_refs_name (w : World Blob) :
  let w' := hangup w in
  (state (app w') = EVALUATION /\ callTranscript (app w') = transcript (ui w)) /\
  mountedRef (refs w') = false /\
  (forall st m,
     streamRef (refs w) = Some st -> streams (browser w) !! st = Some m ->
     exists m', streams (browser w') !! st = Some m' /\ live m' = false) /\
  (forall p x,
     processorRef (refs w) = Some p -> processors (browser w) !! p = Some x ->
     (exists x', processors (browser w') !! p = Some x' /\
                 sp_connected x' = false) /\
     forall frame, step (AudioProcess p frame) w' = w') /\
  (forall i x,
     inputSourceRef (refs w) = Some i ->
     inputSources (browser w) !! i = Some x ->
     exists x', inputSources (browser w') !! i = Some x' /\
                src_connected x' = false /\ src_stream x' = src_stream x) /\
  (forall c x,
     audioContextRef (refs w) = Some c -> contexts (browser w) !! c = Some x ->
     exists x', contexts (browser w') !! c = Some x' /\
                ctx_state x' = closed /\ sampleRate x' = sampleRate x) /\
  (processorRef (refs w') = None /\ audioContextRef (refs w') = None) /\
  ((forall st, streamRef (refs w) ≠ Some st ->
      streams (browser w') !! st = streams (browser w) !! st) /\
   (forall p, processorRef (refs w) ≠ Some p ->
      processors (browser w') !! p = processors (browser w) !! p) /\
   (forall i, inputSourceRef (refs w) ≠ Some i ->
      inputSources (browser w') !! i = inputSources (browser w) !! i) /\
   (forall c, audioContextRef (refs w) ≠ Some c ->
      contexts (browser w') !! c = contexts (browser w) !! c)) /\
  (sessions (browser w') = sessions (browser w) /\
   bufferSources (browser w') = bufferSources (browser w) /\
   audioQueueRef (refs w') = audioQueueRef (refs w)) /\
  (forall session, step (SessionOpen session) w' = w') /\
  (forall session now dateNow m,
     step (SessionMessage session now dateNow m) w' = w') /\
  (forall session, step (SessionError session) w' = w').
Proof.
  destruct w as [a u [[c|] [i|] [p|] [st|] next q sp mt] b pd];
    cbn; (split; [split; reflexivity|]); (split; [reflexivity|]);
    (split; [intros k x Hk Hx; try discriminate; injection Hk as <-;
             rewrite ?list_lookup_alter_eq, Hx; cbn; eauto|]);
    (split; [intros k x Hk Hx; try discriminate; injection Hk as <-;
             rewrite ?list_lookup_alter_eq, Hx; cbn;
             (split; [eauto|]); intros frame; reflexivity|]);
    (split; [intros k x Hk Hx; try discriminate; injection Hk as <-;
             rewrite ?list_lookup_alter_eq, Hx; cbn; eauto|]);
    (split; [intros k x Hk Hx; try discriminate; injection Hk as <-;
             rewrite ?list_lookup_alter_eq, Hx; cbn; eauto|]);
    (split; [split; reflexivity|]);
    (split; [repeat split; intros k Hk;
             rewrite ?list_lookup_alter_ne by congruence; reflexivity|]);
    (split; [repeat split; reflexivity|]);
    (split; [|split]); intros; cbn [step browser sessions];
    destruct (sessions b !! session); reflexivity.
Qed.

(** [onerror] and the [catch] block of [startSession] write two state cells
    and release nothing. *)
Lemma error_paths_release_nothing (w : World Blob) (message : string) :
  (refs (onerror w) = refs w /\ browser (onerror w) = browser w) /\
  (refs (startSession_denied message w) = refs w /\
   browser (startSession_denied message w) = browser w).
Proof.
  unfold onerror, startSession_denied.
  destruct (mountedRef (refs w)); repeat split; reflexivity.
Qed.

(** X1.  Only a click on "Start Samtale" or "Prøv Igjen" adds a connection
    attempt: no server event, audio callback or other click ever does. *)
Lemma only_a_click_connects (e : Event) (w : World Blob) :
  (attempts w < attempts (step e w))%nat ->
  e = Click StartSamtale \/ e = Click ProvIgjen.
Proof.
  unfold attempts. intros Hlt.
  assert (Hother : forall thrown b,
            b ≠ StartSamtale -> b ≠ ProvIgjen ->
            pending (click thrown b w) = pending w /\
            sessions (browser (click thrown b w)) = sessions (browser w)).
  { intros thrown b H1 H2. destruct b; try congruence; cbn [click];
      unfold unmount, handleHangup, handleEndCall, onCancel, toggleMute;
      repeat match goal with
      | |- context [pending (cleanup ?x)] =>
          let Hp := fresh in let Hs := fresh in
          destruct (cleanup_frame x) as (_ & _ & Hp & Hs & _);
          rewrite Hp, Hs; clear Hp Hs; cbn
      end; auto. }
  assert (Hthrows : forall site message sc (x : World Blob),
            pending (startSession (Some (site, message)) sc x) = pending x /\
            sessions (browser (startSession (Some (site, message)) sc x)) =
              sessions (browser x)).
  { intros site message sc x. unfold startSession, startSession_denied.
    destruct (r_status sc), site; cbn; auto. }
  destruct e as [b|b site message| |message|message|session
                 |session now dateNow m|session|session
                 |processor frame|source|]; cbn [step] in Hlt.
  - destruct b; auto; exfalso;
      destruct (mountedRef (refs w) && bool_decide _); try lia;
      match type of Hlt with
      | context [click ?t ?b w] =>
          destruct (Hother t b) as [Hp Hs]; [discriminate..|];
          rewrite Hp, Hs in Hlt
      end; lia.
  - exfalso. destruct (mountedRef (refs w) && bool_decide _); [|lia].
    destruct b;
      try (match type of Hlt with
           | context [click ?t ?b w] =>
               destruct (Hother t b) as [Hp Hs]; [discriminate..|];
               rewrite Hp, Hs in Hlt
           end; lia);
      cbn [click] in Hlt;
      match type of Hlt with
      | context [startSession _ ?sc ?x] =>
          destruct (Hthrows site message sc x) as [Hp Hs];
          rewrite Hp, Hs in Hlt
      end; cbn in Hlt; lia.
  - exfalso. destruct w as [a u r b [|sc rest]]; cbn in Hlt;
      rewrite ?length_app in Hlt; cbn in Hlt; lia.
  - exfalso. destruct w as [a u r b [|sc rest]]; cbn in Hlt; lia.
  - exfalso. destruct w as [a u r b [|sc rest]]; cbn in Hlt; lia.
  - exfalso. destruct (sessions (browser w) !! session) as [s|]; [|lia].
    unfold onopen, setupAudioInput in Hlt.
    destruct (mountedRef (refs w)); [|lia]. cbn in Hlt.
    destruct (audioContextRef (refs w)); cbn in Hlt; lia.
  - exfalso. destruct (sessions (browser w) !! session) as [s|]; [|lia].
    unfold onmessage, handleInterruption, handleAudioOutput in Hlt.
    destruct (handleTranscription_frame dateNow m w) as (Hr & Hb & _ & Hp & _).
    destruct (mountedRef (refs w)); cbn [negb] in Hlt; [|lia].
    set (wt := handleTranscription dateNow m w) in *. clearbody wt.
    destruct (truthy (inlineData m)) as [data|];
      [destruct (audioContextRef (refs wt)) as [c|] eqn:Hc;
         [destruct (decodeAudioData data)|]|];
      destruct (interrupted m); cbn in Hlt; rewrite ?Hc in Hlt; cbn in Hlt;
      try (destruct (audioContextRef (refs wt)); cbn in Hlt);
      rewrite ?Hp, ?Hb in Hlt; lia.
  - exfalso. destruct (sessions (browser w) !! session) as [s|]; [|lia].
    unfold onerror in Hlt. destruct (mountedRef (refs w)); cbn in Hlt; lia.
  - exfalso. destruct (sessions (browser w) !! session) as [s|]; [|lia].
    cbn in Hlt. rewrite length_alter in Hlt. lia.
  - exfalso. destruct (processors (browser w) !! processor) as [p|]; [|lia].
    destruct (sp_connected p); [|lia]. unfold onaudioprocess in Hlt.
    destruct (sp_isMuted p); [lia|].
    destruct (PrimFloat.ltb _ _); cbn in Hlt;
      [destruct (sessionPromiseRef (refs w)); cbn in Hlt;
         rewrite ?length_alter in Hlt|]; lia.
  - exfalso. cbn in Hlt. lia.
  - exfalso. unfold unmount in Hlt.
    destruct (cleanup_frame (upd_refs (set_mountedRef false) w))
      as (_ & _ & Hp & Hs & _).
    rewrite Hp, Hs in Hlt. cbn in Hlt. lia.
Qed.

End Lifecycle.

(** ** [extractProductInfo] *)

(** C10, as amended.  Once the client has been built, [extractProductInfo]
    always returns, for every behaviour of the AI call and of [JSON.parse]:
    the parsed reply when there is one, and whenever the AI call throws or
    yields no text (and also when the reply does not parse) the fallback
    [ProductContext] with the url given, the company name "Ukjent Bedrift"
    and exactly three selling points.  When [getClient()] throws, which
    happens before the [try] block is entered, the function throws that
    error: the promise rejects. *)
Theorem extractProductInfo_total {Json : Type}
    (getClient : Completion unit)
    (generateContent : string -> Completion (option string))
    (JSON_parse : string -> Completion Json) (link manualText : string) :
  let result :=
    extractProductInfo getClient generateContent JSON_parse link manualText in
  let reply := generateContent (extract_prompt link manualText) in
  (forall e, getClient = Throw e -> result = Throw e) /\
  (forall ai, getClient = Return ai ->
     (exists v, result = Return v) /\
     (forall t s json,
        reply = Return t -> truthy t = Some s -> JSON_parse s = Return json ->
        result = Return (FromModel json)) /\
     ((exists e, reply = Throw e) \/
      (exists t, reply = Return t /\ truthy t = None) \/
      (exists t s e,
         reply = Return t /\ truthy t = Some s /\ JSON_parse s = Throw e) ->
      exists p,
        result = Return (Literal p) /\
        url p = link /\ companyName p = "Ukjent Bedrift" /\
        sellingPoints p = ["Kvalitet"; "Service"; "Innovasjon"] /\
        length (sellingPoints p) = 3%nat)).
Proof.
  cbv zeta. unfold extractProductInfo. split.
  - intros e ->. reflexivity.
  - intros ai ->. cbn [bind]. split; [|split].
    + destruct (generateContent _) as [t|e]; cbn; [|eauto].
      destruct (truthy t) as [s|]; cbn; [|eauto].
      destruct (JSON_parse s); cbn; eauto.
    + intros t s json Ht Hs Hj. rewrite Ht. cbn. rewrite Hs. cbn. rewrite Hj.
      reflexivity.
    + intros [[e He]|[(t & Ht & Hno)|(t & s & e & Ht & Hs & He)]];
        rewrite ?He, ?Ht; cbn; rewrite ?Hno, ?Hs; cbn; rewrite ?He; cbn;
        eexists; (split; [reflexivity|]); cbn; auto.
Qed.

(** C10, as stated, fails: without an API key the constructor called by
    [getClient()] throws, outside the [try] block, and [extractProductInfo]
    rejects with that error instead of falling back. *)
Lemma extractProductInfo_rejects_without_client :
  extractProductInfo
    (Throw "An API Key must be set when running in a browser.")
    (fun prompt => Return (Some "{}")) (fun t => Return t)
    "https://minbedrift.no/produkt" "" =
  Throw "An API Key must be set when running in a browser.".
Proof. reflexivity. Qed.

(** * Worked scenarios *)

Lemma timely_chunks_decodable :
  Forall (Scheduler.decodable sample_seconds) timely_chunks.
Proof. repeat constructor; discriminate. Defined.

Lemma gapless_playback_witness :
  Scheduler.sources
    (Scheduler.deliver sample_seconds timely_chunks Scheduler.connected) =
  [{| Scheduler.startTime := 0; Scheduler.duration := 0.3;
      Scheduler.stopped := false |};
   {| Scheduler.startTime := 0.3; Scheduler.duration := 0.2;
      Scheduler.stopped := false |};
   {| Scheduler.startTime := 0.5; Scheduler.duration := 0.3;
      Scheduler.stopped := false |}].
Proof.
  exact (proj1 (gapless_playback sample_seconds Scheduler.connected running
                  timely_chunks eq_refl eq_refl timely_chunks_decodable)).
Defined.

(** C1, as stated, fails.  A second buffer that arrives when the clock reads
    10, after the first one (start 0, duration 0.3) has ended, starts at 10
    and not at [0 + 0.3].  And on chunks that all arrive on time the sums
    are binary64 sums: with three buffers of 0.2 s, the first started at
    128/24000 s, the third starts at 0.40533333333333332, strictly before
    the first start plus the sum [0.2 + 0.2] of the two durations,
    0.40533333333333338; and the second starts at the rounded sum of the
    first start and 0.2, which lies below their exact sum, the time at which
    the first buffer ends. *)
Lemma late_chunk_leaves_gap :
  (Forall (Scheduler.decodable sample_seconds) late_chunks /\
   Scheduler.sources
     (Scheduler.deliver sample_seconds late_chunks Scheduler.connected) =
     [{| Scheduler.startTime := 0; Scheduler.duration := 0.3;
         Scheduler.stopped := false |};
      {| Scheduler.startTime := 10; Scheduler.duration := 0.2;
         Scheduler.stopped := false |}] /\
   PrimFloat.ltb (0 + 0.3) 10 = true) /\
  (Forall (Scheduler.decodable sample_seconds) steady_chunks /\
   Scheduler.later_chunks_on_time 0 (Scheduler.timing steady_chunks) /\
   map Scheduler.startTime
     (Scheduler.sources
        (Scheduler.deliver sample_seconds steady_chunks Scheduler.connected)) =
     [128 / 24000; 128 / 24000 + 0.2; 128 / 24000 + 0.2 + 0.2]%float /\
   PrimFloat.ltb (128 / 24000 + 0.2 + 0.2) (128 / 24000 + (0.2 + 0.2)) = true /\
   below_exact_sum (128 / 24000 + 0.2) (128 / 24000) 0.2 = true).
Proof.
  split; [split; [|split]|split; [|split; [|split; [|split]]]].
  - repeat constructor; discriminate.
  - reflexivity.
  - reflexivity.
  - repeat constructor; discriminate.
  - repeat split; reflexivity.
  - reflexivity.
  - reflexivity.
  - vm_compute. reflexivity.
Qed.

(** Two chunks whose handlers overlap: the second message arrives while the
    first chunk is still being decoded, and its own decoding finishes
    first.  The second chunk is started first, at the cursor, and the first
    chunk after it. *)
Example overlapping_handlers_swap_buffers :
  Scheduler.sources
    (Scheduler.run sample_seconds
       [Scheduler.Message 0 (audioMsg "abc");
        Scheduler.Message 0.01 (audioMsg "de");
        Scheduler.Settled 1 0.02; Scheduler.Settled 0 0.03]
       Scheduler.connected) =
  [{| Scheduler.startTime := 0.01; Scheduler.duration := 0.2;
      Scheduler.stopped := false |};
   {| Scheduler.startTime := 0.01 + 0.2; Scheduler.duration := 0.3;
      Scheduler.stopped := false |}].
Proof. reflexivity. Qed.

(** A chunk that arrives while the browser has the context suspended: its
    call waits for [ctx.resume()], reads the clock only then, and waits
    again for the decoder. *)
Example suspended_context_is_resumed_first :
  let p := Scheduler.run sample_seconds
             [Scheduler.StateChange suspended;
              Scheduler.Message 0.7 (audioMsg "abc");
              Scheduler.StateChange running;
              Scheduler.Settled 0 0.75; Scheduler.Settled 0 0.8] playing in
  Scheduler.sources p =
    [{| Scheduler.startTime := 0; Scheduler.duration := 0.6;
        Scheduler.stopped := false |};
     {| Scheduler.startTime := 0.75; Scheduler.duration := 0.3;
        Scheduler.stopped := false |}] /\
  Scheduler.inflight p = [].
Proof. cbv zeta. split; reflexivity. Qed.



(** A chunk that was being decoded when the interruption was handled is
    played all the same: it is started at the clock reading of the
    interruption and is in the active set afterwards. *)
Example chunk_in_decoding_survives_the_cut :
  let p := Scheduler.run sample_seconds
             [Scheduler.Message 0.5 (audioMsg "abc");
              Scheduler.Message 1 interruptedMsg;
              Scheduler.Settled 0 1.5] playing in
  Scheduler.sources p =
    [{| Scheduler.startTime := 0; Scheduler.duration := 0.6;
        Scheduler.stopped := true |};
     {| Scheduler.startTime := 1; Scheduler.duration := 0.3;
        Scheduler.stopped := false |}] /\
  Scheduler.audioQueueRef p = {[1%nat]}.
Proof. cbv zeta. split; vm_compute; reflexivity. Qed.

Lemma transcript_assembly_witness :
  assemble [(model, "Hei", 1); (model, " der", 2); (user, "stopp", 3);
            (model, "Ja?", 4)] [] =
  [{| role := model; text := "Hei der"; timestamp := 1 |};
   {| role := user; text := "stopp"; timestamp := 3 |};
   {| role := model; text := "Ja?"; timestamp := 4 |}].
Proof.
  exact (proj2 (proj2 (proj2
    (transcript_assembly model user "Hei" " der" "stopp" "Ja?" 1 2 3 4
       ltac:(discriminate))))).
Defined.

Lemma connected_call_capturing : capturing 0 0 connected_call.
Proof.
  split; [|split].
  - eexists. split; [reflexivity|]. split; reflexivity.
  - reflexivity.
  - eexists. split; reflexivity.
Defined.

(** A frame whose RMS is exactly the threshold is not sent. *)
Lemma voice_activity_gate_witness :
  rms [0.01%float] = 0.01%float /\
  sent_on 0 (step sample_encode sample_decode
               (AudioProcess 0%nat [0.01%float]) connected_call) =
  sent_on 0 connected_call.
Proof.
  split; [reflexivity|].
  exact (proj1 (proj2 (voice_activity_gate sample_encode sample_decode
                         0%nat 0%nat connected_call connected_call_capturing))
           [0.01%float] eq_refl).
Defined.


(** C5, as stated, fails: after the hangup click the call has ended, yet the
    session is still open and the buffer that was playing is still in the
    active set. *)
Lemma hangup_leaves_transport_open :
  let w := step sample_encode sample_decode (Click AvsluttSamtale)
             playing_call in
  state (app w) = EVALUATION /\
  sess_open <$> sessions (browser w) !! 0%nat = Some true /\
  audioQueueRef (refs w) = {[0%nat]} /\
  ~ all_released w.
Proof.
  cbv zeta. split; [reflexivity|]. split; [reflexivity|].
  split; [vm_compute; reflexivity|].
  intros (_ & Hsess & _).
  apply Forall_inv in Hsess. vm_compute in Hsess. discriminate.
Qed.

(** What the hangup leaves behind after an error and a retry: the stream
    and the processor of the failed attempt are no longer named by the refs
    and stay live and connected (the old processor still sends what it
    captures), and of the four audio contexts only the playback context of
    the second attempt is closed. *)
Example hangup_after_retry_leaks :
  let w := run sample_encode sample_decode
             [Click ProvIgjen; MediaGranted; SessionOpen 1%nat;
              Click AvsluttSamtale] failed_call in
  state (app w) = EVALUATION /\
  map live (streams (browser w)) = [true; false] /\
  map sp_connected (processors (browser w)) = [true; false] /\
  map (fun c => (sampleRate c, ctx_state c)) (contexts (browser w)) =
    [(24000, running); (16000, running); (24000, closed); (16000, running)] /\
  sent_on 1 (step sample_encode sample_decode
               (AudioProcess 0%nat [0.5%float]) w) =
    [sample_encode [0.5%float]].
Proof. cbv zeta. repeat split; vm_compute; reflexivity. Qed.

(** A click on "Start Samtale" during which [new GoogleGenAI] throws: the
    click itself ends on the error screen, with the message of the
    exception, and nothing has been created. *)
Example start_without_api_key :
  let w := step sample_encode sample_decode
             (ClickThrows StartSamtale AtGoogleGenAI
                "An API Key must be set when running in a browser.")
             (mounted (list float)) in
  render (ui w) =
    ErrorScreen "An API Key must be set when running in a browser." /\
  contexts (browser w) = [] /\ audioContextRef (refs w) = None /\
  pending w = [].
Proof. cbv zeta. repeat split; reflexivity. Qed.

(** The same when [navigator.mediaDevices] is undefined: the playback
    context has been created by then and stays open. *)
Example start_without_media_devices :
  let w := step sample_encode sample_decode
             (ClickThrows StartSamtale AtGetUserMedia
                "Cannot read properties of undefined (reading 'getUserMedia')")
             (mounted (list float)) in
  status (ui w) = error /\
  contexts (browser w) = [{| sampleRate := 24000; ctx_state := running |}] /\
  audioContextRef (refs w) = Some 0%nat /\ pending w = [].
Proof. cbv zeta. repeat split; reflexivity. Qed.

(** C6 at its failing input: the user mutes a connected call and a loud
    frame (RMS 0.5) is captured; the frame is sent all the same. *)
Theorem muted_frame_is_still_sent :
  let muted := step sample_encode sample_decode (Click MuteButton)
                 connected_call in
  let w := step sample_encode sample_decode
             (AudioProcess 0%nat [0.5%float; (-0.5)%float]) muted in
  isMuted (ui muted) = true /\
  rms [0.5%float; (-0.5)%float] = 0.5%float /\
  sent_on 0 muted = [] /\
  sent_on 0 w = [sample_encode [0.5%float; (-0.5)%float]].
Proof.
  cbv zeta. repeat split; vm_compute; reflexivity.
Qed.

(** C7 at its failing input: a transport error on a connected call.  The
    error screen with its message and its two buttons is shown, but nothing
    has been released: the microphone stream is live, both audio contexts
    run, the processor is connected, and a loud frame still goes out. *)
Theorem transport_error_releases_nothing :
  let w := step sample_encode sample_decode (SessionError 0%nat)
             connected_call in
  status (ui w) = error /\
  render (ui w) =
    ErrorScreen
      "Mistet kontakten med serveren. Sjekk internett eller prøv igjen." /\
  buttons (render (ui w)) = [ProvIgjen; GaTilbake] /\
  refs w = refs connected_call /\
  browser w = browser connected_call /\
  streams (browser w) = [{| live := true |}] /\
  map ctx_state (contexts (browser w)) = [running; running] /\
  map sp_connected (processors (browser w)) = [true] /\
  sent_on 0 (step sample_encode sample_decode
               (AudioProcess 0%nat [0.5%float]) w) =
    [sample_encode [0.5%float]].
Proof.
  cbv zeta. repeat split; vm_compute; reflexivity.
Qed.

(** What a late microphone grant does: the call screen is left while
    [getUserMedia] is still pending; when it resolves, the stream is stored
    and a session is connected all the same. *)
Example late_microphone_grant_is_kept :
  let w := run sample_encode sample_decode
             [Click StartSamtale; Unmount; MediaGranted]
             (mounted (list float)) in
  mountedRef (refs w) = false /\
  streamRef (refs w) = Some 0%nat /\
  streams (browser w) = [{| live := true |}] /\
  map sess_open (sessions (browser w)) = [true].
Proof. cbv zeta. repeat split; vm_compute; reflexivity. Qed.

(** The end-to-end scenarios of the specification. *)

Example silence_is_never_sent :
  rms [0%float; 0%float; 0%float] = 0%float /\
  sent_on 0 (run sample_encode sample_decode
               [AudioProcess 0%nat [0%float; 0%float; 0%float];
                AudioProcess 0%nat [0%float; 0%float; 0%float]]
               connected_call) = [].
Proof. split; vm_compute; reflexivity. Qed.

Example one_loud_frame_is_sent_once :
  sent_on 0 (run sample_encode sample_decode
               [AudioProcess 0%nat [0%float; 0%float];
                AudioProcess 0%nat [0.5%float; 0.5%float];
                AudioProcess 0%nat [0%float; 0%float]]
               connected_call) = [sample_encode [0.5%float; 0.5%float]].
Proof. vm_compute. reflexivity. Qed.

Example interrupted_conversation :
  let w := run sample_encode sample_decode
             [SessionMessage 0%nat 1 100 (transcriptMsg model "Hei");
              SessionMessage 0%nat 2 101 (transcriptMsg model " der");
              SessionMessage 0%nat 3 102 interruptedMsg;
              SessionMessage 0%nat 4 103 (transcriptMsg user "stopp")]
             playing_call in
  transcript (ui w) =
    [{| role := model; text := "Hei der"; timestamp := 100 |};
     {| role := user; text := "stopp"; timestamp := 103 |}] /\
  audioQueueRef (refs playing_call) = {[0%nat]} /\
  audioQueueRef (refs w) = ∅ /\
  map stopped (bufferSources (browser w)) = [true].
Proof. cbv zeta. repeat split; vm_compute; reflexivity. Qed.

(** * Further properties of the call screen *)

Section EventLoop.

Context {Blob : Type}.
Variable createPCM16Blob : list float -> Blob.
Variable decodeAudioData : string -> option AudioBuffer.

Local Abbreviation step := (step createPCM16Blob decodeAudioData).
Local Abbreviation run := (run createPCM16Blob decodeAudioData).

Lemma run_app (es1 es2 : list Event) (w : World Blob) :
  run (es1 ++ es2) w = run es2 (run es1 w).
Proof. apply fold_left_app. Qed.

(** What [onmessage] leaves alone, whatever the message. *)
Lemma onmessage_frame (now dateNow : Z) (m : LiveServerMessage)
    (w : World Blob) :
  let w' := onmessage decodeAudioData now dateNow m w in
  status (ui w') = status (ui w) /\ errorMsg (ui w') = errorMsg (ui w) /\
  isMuted (ui w') = isMuted (ui w) /\
  volumeLevel (ui w') = volumeLevel (ui w) /\
  app w' = app w /\ pending w' = pending w /\
  streams (browser w') = streams (browser w) /\
  inputSources (browser w') = inputSources (browser w) /\
  processors (browser w') = processors (browser w) /\
  sessions (browser w') = sessions (browser w) /\
  length (contexts (browser w')) = length (contexts (browser w)) /\
  audioContextRef (refs w') = audioContextRef (refs w) /\
  inputSourceRef (refs w') = inputSourceRef (refs w) /\
  processorRef (refs w') = processorRef (refs w) /\
  streamRef (refs w') = streamRef (refs w) /\
  sessionPromiseRef (refs w') = sessionPromiseRef (refs w) /\
  mountedRef (refs w') = mountedRef (refs w).
Proof.
  unfold onmessage. destruct (mountedRef (refs w)) eqn:Hm; cbn [negb];
    [|rewrite Hm; repeat split; reflexivity].
  destruct (handleTranscription_frame dateNow m w)
    as (Hr & Hb & Ha & Hp & Hs & He & Hmu & Hv).
  set (wt := handleTranscription dateNow m w) in *. clearbody wt.
  rewrite <- Hr, <- Hb, <- Ha, <- Hp, <- Hs, <- He, <- Hmu, <- Hv.
  unfold handleInterruption, handleAudioOutput.
  destruct (audioContextRef (refs wt)) as [c|] eqn:Hc;
    (destruct (truthy (inlineData m)) as [data|];
       [destruct (decodeAudioData data)|]);
    destruct (interrupted m); cbn; rewrite ?Hc; cbn;
    rewrite ?length_alter; repeat split; first [reflexivity | congruence].
Qed.

(** A button that the screen does not list cannot have been clicked. *)
Ltac not_offered H :=
  exfalso;
  repeat (apply elem_of_cons in H; destruct H as [H|H]; [discriminate H|]);
  apply elem_of_nil in H; exact H.

(** X2.  The status changes only in these ways: a click on "Start Samtale"
    or "Prøv Igjen" makes it [connecting], unless the [try] block throws
    during that click, which makes it [error]; a refused microphone, an
    exception after the microphone was granted, or a transport error makes
    it [error]; and the transport opening makes it [connected].  No other
    event, and no other click, changes it. *)
Theorem status_transitions (e : Event) (w : World Blob) :
  status (ui (step e w)) ≠ status (ui w) ->
  ((e = Click StartSamtale \/ e = Click ProvIgjen) /\
   status (ui (step e w)) = connecting) \/
  ((exists site message,
      e = ClickThrows StartSamtale site message \/
      e = ClickThrows ProvIgjen site message) /\
   status (ui (step e w)) = error) \/
  ((exists message, e = MediaGrantedThrows message) /\
   status (ui (step e w)) = error) \/
  ((exists message, e = MediaDenied message) /\
   status (ui (step e w)) = error) \/
  ((exists session, e = SessionOpen session) /\
   status (ui (step e w)) = connected) \/
  ((exists session, e = SessionError session) /\
   status (ui (step e w)) = error).
Proof.
  assert (Hother : forall thrown b,
            b ≠ StartSamtale -> b ≠ ProvIgjen ->
            status (ui (click thrown b w)) = status (ui w)).
  { intros thrown b H1 H2. destruct b; try congruence; cbn [click].
    - unfold unmount, onCancel.
      destruct (cleanup_frame
        (upd_refs (set_mountedRef false)
           (upd_app (fun a => {| state := PERSONA_SELECTION;
                                 callTranscript := callTranscript a |}) w)))
        as (-> & _). reflexivity.
    - reflexivity.
    - unfold unmount, handleHangup, handleEndCall.
      destruct (cleanup_frame
        (upd_refs (set_mountedRef false)
           (upd_app (fun _ => {| state := EVALUATION;
                                 callTranscript := transcript (ui w) |})
              (cleanup w)))) as (-> & _). cbn.
      destruct (cleanup_frame w) as (-> & _). reflexivity. }
  destruct e as [b|b site message| |message|message|session
                 |session now dateNow m|session|session
                 |processor frame|source|]; cbn [step].
  - destruct (mountedRef (refs w)); cbn [andb]; [|congruence].
    destruct (bool_decide_reflect (b ∈ buttons (render (ui w)))) as [Hin|_];
      [|congruence].
    unfold render in Hin. destruct b;
      try (rewrite Hother by discriminate; congruence); cbn [click].
    + unfold startSession, scope_of. cbn [r_status].
      destruct (status (ui w)) eqn:Hs; try congruence; cbn; auto.
    + unfold startSession, scope_of. cbn [r_status].
      destruct (status (ui w)) eqn:Hs; cbn in Hin; cbn;
        try (not_offered Hin); auto.
  - destruct (mountedRef (refs w)); cbn [andb]; [|congruence].
    destruct (bool_decide_reflect (b ∈ buttons (render (ui w)))) as [Hin|_];
      [|congruence].
    unfold render in Hin. destruct b;
      try (rewrite Hother by discriminate; congruence); cbn [click].
    + unfold startSession, startSession_denied, scope_of. cbn [r_status].
      destruct (status (ui w)) eqn:Hs, site; try congruence; cbn;
        intros _; right; left; eauto.
    + unfold startSession, startSession_denied, scope_of. cbn [r_status].
      destruct (status (ui w)) eqn:Hs, site; cbn in Hin; cbn;
        try (not_offered Hin); congruence.
  - destruct (pending w); cbn; congruence.
  - destruct (pending w); cbn; [congruence|]. intros _. right. right. left.
    eauto.
  - destruct (pending w); cbn; [congruence|]. intros _. do 3 right. left.
    eauto.
  - destruct (sessions (browser w) !! session); [|congruence].
    unfold onopen. destruct (mountedRef (refs w)); [|congruence].
    unfold setupAudioInput. cbn.
    destruct (audioContextRef (refs w)); cbn; intros _; do 4 right; left;
      eauto.
  - destruct (sessions (browser w) !! session); [|congruence].
    destruct (onmessage_frame now dateNow m w) as (-> & _). congruence.
  - destruct (sessions (browser w) !! session); [|congruence].
    unfold onerror. destruct (mountedRef (refs w)); [|congruence].
    cbn. intros _. do 5 right. eauto.
  - destruct (sessions (browser w) !! session); cbn; congruence.
  - destruct (processors (browser w) !! processor) as [p|]; [|congruence].
    destruct (sp_connected p); [|congruence]. unfold onaudioprocess.
    destruct (sp_isMuted p); [congruence|].
    destruct (PrimFloat.ltb _ _); cbn;
      [destruct (sessionPromiseRef (refs w))|]; cbn; congruence.
  - cbn. congruence.
  - unfold unmount.
    destruct (cleanup_frame (upd_refs (set_mountedRef false) w)) as (-> & _).
    cbn. congruence.
Qed.

(** Which events can touch the volume level, and which the playback queue. *)
Lemma step_frame (e : Event) (w : World Blob) :
  ((exists processor frame, e = AudioProcess processor frame) \/
   volumeLevel (ui (step e w)) = volumeLevel (ui w)) /\
  ((exists session now dateNow m, e = SessionMessage session now dateNow m) \/
   (exists source, e = SourceEnded source) \/
   (audioQueueRef (refs (step e w)) = audioQueueRef (refs w) /\
    bufferSources (browser (step e w)) = bufferSources (browser w))).
Proof.
  assert (Hclean : forall x : World Blob,
            volumeLevel (ui (cleanup x)) = volumeLevel (ui x) /\
            audioQueueRef (refs (cleanup x)) = audioQueueRef (refs x) /\
            bufferSources (browser (cleanup x)) = bufferSources (browser x)).
  { intros x. destruct (cleanup_frame x) as (-> & _ & _ & _ & -> & _ & _ & _
                                             & _ & -> & _). auto. }
  assert (Hsame : forall x : World Blob,
            volumeLevel (ui x) = volumeLevel (ui w) ->
            audioQueueRef (refs x) = audioQueueRef (refs w) ->
            bufferSources (browser x) = bufferSources (browser w) ->
            forall e,
            ((exists processor frame, e = AudioProcess processor frame) \/
             volumeLevel (ui x) = volumeLevel (ui w)) /\
            ((exists session now dateNow m,
                e = SessionMessage session now dateNow m) \/
             (exists source, e = SourceEnded source) \/
             (audioQueueRef (refs x) = audioQueueRef (refs w) /\
              bufferSources (browser x) = bufferSources (browser w)))) by auto.
  assert (Hclick : forall thrown b,
            volumeLevel (ui (click thrown b w)) = volumeLevel (ui w) /\
            audioQueueRef (refs (click thrown b w)) = audioQueueRef (refs w) /\
            bufferSources (browser (click thrown b w)) =
              bufferSources (browser w)).
  { intros thrown b. destruct b; cbn [click];
      unfold startSession, startSession_denied, scope_of, unmount, onCancel,
        handleHangup, handleEndCall, toggleMute; cbn [r_status];
      try (destruct (status (ui w)), thrown as [[[| |] message]|]; cbn; auto);
      repeat match goal with
      | |- context [cleanup ?x] =>
          let H1 := fresh in let H2 := fresh in let H3 := fresh in
          destruct (Hclean x) as (H1 & H2 & H3);
          rewrite ?H1, ?H2, ?H3; clear H1 H2 H3; cbn
      end; auto. }
  destruct e as [b|b site message| |message|message|session
                 |session now dateNow m|session|session
                 |processor frame|source|]; cbn [step].
  - destruct (_ && _); [|auto].
    destruct (Hclick None b) as (H1 & H2 & H3). apply Hsame; assumption.
  - destruct (_ && _); [|auto].
    destruct (Hclick (Some (site, message)) b) as (H1 & H2 & H3).
    apply Hsame; assumption.
  - destruct (pending w); cbn; auto.
  - destruct (pending w); cbn; auto.
  - destruct (pending w); cbn; auto.
  - destruct (sessions (browser w) !! session); [|auto].
    unfold onopen, setupAudioInput. destruct (mountedRef (refs w)); [|auto].
    cbn. destruct (audioContextRef (refs w)); cbn; auto.
  - split; [|left; eauto 10].
    destruct (sessions (browser w) !! session); [|auto].
    destruct (onmessage_frame now dateNow m w) as (_ & _ & _ & -> & _). auto.
  - destruct (sessions (browser w) !! session); [|auto].
    unfold onerror. destruct (mountedRef (refs w)); cbn; auto.
  - destruct (sessions (browser w) !! session); cbn; auto.
  - split; [left; eauto|].
    destruct (processors (browser w) !! processor) as [p|]; [|auto].
    destruct (sp_connected p); [|auto]. unfold onaudioprocess.
    destruct (sp_isMuted p); [auto|].
    destruct (PrimFloat.ltb _ _); cbn;
      [destruct (sessionPromiseRef (refs w))|]; cbn; auto.
  - split; [cbn; auto|right; left; eauto].
  - unfold unmount.
    destruct (Hclean (upd_refs (set_mountedRef false) w)) as (H1 & H2 & H3).
    apply Hsame; rewrite ?H1, ?H2, ?H3; reflexivity.
Qed.

Lemma handleAudioOutput_queue_live (now : Z) (m : LiveServerMessage)
    (w : World Blob) :
  queue_live w -> queue_live (handleAudioOutput decodeAudioData now m w).
Proof.
  intros Hq. unfold handleAudioOutput.
  destruct (truthy (inlineData m)) as [data|]; [|exact Hq].
  destruct (audioContextRef (refs w)) as [c|]; [|exact Hq].
  destruct (decodeAudioData data) as [buf|]; [|exact Hq].
  intros src. cbn. intros Hin.
  apply elem_of_union in Hin as [Hin|Hin].
  - apply elem_of_singleton in Hin. subst src.
    eexists. split.
    + rewrite lookup_app_r by lia. rewrite Nat.sub_diag. reflexivity.
    + reflexivity.
  - destruct (Hq src Hin) as (b & Hb & Hs). exists b. split; [|exact Hs].
    apply lookup_app_l_Some. exact Hb.
Qed.

Lemma step_queue_live (e : Event) (w : World Blob) :
  queue_live w -> queue_live (step e w).
Proof.
  intros Hq.
  destruct (step_frame e w) as [_ [(session & now & dateNow & m & ->)
                                  |[(source & ->)|[Hqueue Hbuf]]]].
  - cbn [step]. destruct (sessions (browser w) !! session); [|exact Hq].
    unfold onmessage. destruct (mountedRef (refs w)); cbn [negb]; [|exact Hq].
    assert (Ht : queue_live (handleTranscription dateNow m w)).
    { destruct (handleTranscription_frame dateNow m w) as (Hr & Hb & _).
      intros src. rewrite Hr, Hb. apply Hq. }
    apply (handleAudioOutput_queue_live now m) in Ht.
    unfold handleInterruption. destruct (interrupted m); [|exact Ht].
    intros src.
    destruct (audioContextRef _); cbn; intros Hin;
      apply elem_of_empty in Hin; destruct Hin.
  - intros src. cbn. intros Hin. apply elem_of_difference in Hin as [Hin _].
    exact (Hq src Hin).
  - intros src. rewrite Hqueue, Hbuf. apply Hq.
Qed.

(** X3.  Over any sequence of events from the mount on, every source in the
    active set is a buffer that has been started and has not been stopped. *)
Theorem active_set_is_live (events : list Event) :
  queue_live (run events (mounted Blob)).
Proof.
  induction events as [|e events IH] using rev_ind.
  - intros src Hin. apply elem_of_empty in Hin. destruct Hin.
  - rewrite run_app. apply step_queue_live. exact IH.
Qed.

Lemma Math_min_capped (x : float) : capped (Math_min 1%float x).
Proof.
  unfold capped, Math_min. change (is_nan 1%float) with false. cbn [orb].
  destruct (is_nan x); [left; reflexivity|].
  destruct (PrimFloat.ltb x 1%float) eqn:Hlt; auto.
Qed.

(** X4.  The volume level the visualizer reads is, after any sequence of
    events, NaN or at most 1. *)
Theorem volume_level_capped (events : list Event) :
  capped (volumeLevel (ui (run events (mounted Blob)))).
Proof.
  induction events as [|e events IH] using rev_ind.
  - right. right. reflexivity.
  - rewrite run_app.
    change (run [e] (run events (mounted Blob)))
      with (step e (run events (mounted Blob))).
    set (w := run events (mounted Blob)) in *. clearbody w.
    destruct (step_frame e w) as [[(processor & frame & ->)|Hv] _];
      [|rewrite Hv; exact IH].
    cbn [step]. destruct (processors (browser w) !! processor) as [p|];
      [|exact IH].
    destruct (sp_connected p); [|exact IH]. unfold onaudioprocess.
    destruct (sp_isMuted p); [exact IH|].
    destruct (PrimFloat.ltb _ _); cbn;
      [destruct (sessionPromiseRef (refs w))|]; cbn; apply Math_min_capped.
Qed.

(** *** Audio contexts across a retry *)

Lemma cleanup_contexts (w : World Blob) :
  contexts (browser (cleanup w)) =
    match audioContextRef (refs w) with
    | Some c => alter close_ctx c (contexts (browser w))
    | None => contexts (browser w)
    end /\
  audioContextRef (refs (cleanup w)) = None.
Proof.
  destruct w as [a u [[c|] [i|] [p|] [st|] next q sp mt] b pd];
    cbn; split; reflexivity.
Qed.

(** A context that the ref does not name is left as it is by every event;
    the ref, when it changes, becomes unset or names a new context. *)
Lemma step_contexts (e : Event) (w : World Blob) (c : nat)
    (x : AudioContext) :
  contexts (browser w) !! c = Some x ->
  audioContextRef (refs w) ≠ Some c ->
  contexts (browser (step e w)) !! c = Some x /\
  (length (contexts (browser w)) <= length (contexts (browser (step e w))))%nat /\
  (forall k, audioContextRef (refs (step e w)) = Some k ->
     audioContextRef (refs w) = Some k \/
     (length (contexts (browser w)) <= k)%nat).
Proof.
  intros Hx Hne.
  assert (Hsame : forall y : World Blob,
            contexts (browser y) = contexts (browser w) ->
            audioContextRef (refs y) = audioContextRef (refs w) ->
            contexts (browser y) !! c = Some x /\
            (length (contexts (browser w)) <= length (contexts (browser y)))%nat /\
            (forall k, audioContextRef (refs y) = Some k ->
               audioContextRef (refs w) = Some k \/
               (length (contexts (browser w)) <= k)%nat)).
  { intros y -> ->. auto. }
  assert (Hclean : forall y : World Blob,
            contexts (browser y) = contexts (browser w) ->
            audioContextRef (refs y) = audioContextRef (refs w) ->
            contexts (browser (cleanup y)) !! c = Some x /\
            (length (contexts (browser w)) <=
             length (contexts (browser (cleanup y))))%nat /\
            (forall k, audioContextRef (refs (cleanup y)) = Some k ->
               audioContextRef (refs w) = Some k \/
               (length (contexts (browser w)) <= k)%nat)).
  { intros y Hc Hr. destruct (cleanup_contexts y) as (-> & ->).
    rewrite Hr, Hc. split; [|split; [|discriminate]].
    - destruct (audioContextRef (refs w)) as [k|]; [|exact Hx].
      rewrite list_lookup_alter_ne by congruence. exact Hx.
    - destruct (audioContextRef (refs w)); rewrite ?length_alter; lia. }
  assert (Hstart : forall y : World Blob,
            contexts (browser y) = contexts (browser w) ->
            forall thrown sc,
            contexts (browser (startSession thrown sc y)) !! c = Some x /\
            (length (contexts (browser w)) <=
             length (contexts (browser (startSession thrown sc y))))%nat /\
            (forall k,
               audioContextRef (refs (startSession thrown sc y)) = Some k ->
               audioContextRef (refs y) = Some k \/
               (length (contexts (browser w)) <= k)%nat)).
  { intros y Hc thrown sc. unfold startSession, startSession_denied.
    destruct (r_status sc), thrown as [[[| |] message]|]; cbn;
      rewrite ?Hc, ?length_app;
      (split; [first [exact Hx | apply lookup_app_l_Some; exact Hx]|]);
      (split; [lia|]); intros k Hk; auto;
      injection Hk as <-; right; lia. }
  assert (Hclick : forall thrown b,
            contexts (browser (click thrown b w)) !! c = Some x /\
            (length (contexts (browser w)) <=
             length (contexts (browser (click thrown b w))))%nat /\
            (forall k, audioContextRef (refs (click thrown b w)) = Some k ->
               audioContextRef (refs w) = Some k \/
               (length (contexts (browser w)) <= k)%nat)).
  { intros thrown b. destruct b; cbn [click].
    - apply Hstart. reflexivity.
    - apply (Hstart (upd_ui (set_status idle) w)). reflexivity.
    - apply Hclean; reflexivity.
    - apply Hsame; reflexivity.
    - unfold unmount, handleHangup, handleEndCall.
      destruct (cleanup_contexts
        (upd_refs (set_mountedRef false)
           (upd_app (fun _ => {| state := EVALUATION;
                                 callTranscript := transcript (ui w) |})
              (cleanup w)))) as (-> & ->).
      cbn. destruct (cleanup_contexts w) as (-> & ->).
      split; [|split; [|discriminate]].
      + destruct (audioContextRef (refs w)) as [k|]; [|exact Hx].
        rewrite list_lookup_alter_ne by congruence. exact Hx.
      + destruct (audioContextRef (refs w)); rewrite ?length_alter; lia. }
  destruct e as [b|b site message| |message|message|session
                 |session now dateNow m|session|session
                 |processor frame|source|]; cbn [step].
  - destruct (_ && _); [|auto]. apply Hclick.
  - destruct (_ && _); [|auto]. apply Hclick.
  - destruct (pending w); [auto|]. apply Hsame; reflexivity.
  - destruct (pending w); [auto|]. apply Hsame; reflexivity.
  - destruct (pending w); [auto|]. apply Hsame; reflexivity.
  - destruct (sessions (browser w) !! session); [|auto].
    unfold onopen, setupAudioInput. destruct (mountedRef (refs w)); [|auto].
    cbn. destruct (audioContextRef (refs w)) as [k0|] eqn:Hk0; cbn;
      rewrite ?Hk0; [|auto].
    rewrite length_app. split; [apply lookup_app_l_Some; exact Hx|].
    split; [lia|auto].
  - destruct (sessions (browser w) !! session); [|auto].
    destruct (onmessage_frame now dateNow m w)
      as (_ & _ & _ & _ & _ & _ & _ & _ & _ & _ & Hlen & Hr & _).
    rewrite Hlen, Hr. split; [|split; [lia|auto]].
    unfold onmessage. destruct (mountedRef (refs w)); cbn [negb]; [|exact Hx].
    destruct (handleTranscription_frame dateNow m w) as (Hrt & Hbt & _).
    set (wt := handleTranscription dateNow m w) in *. clearbody wt.
    rewrite <- Hbt in Hx. rewrite <- Hrt in Hne.
    unfold handleInterruption, handleAudioOutput.
    destruct (audioContextRef (refs wt)) as [k|] eqn:Hk;
      (destruct (truthy (inlineData m)) as [data|];
         [destruct (decodeAudioData data)|]);
      destruct (interrupted m); cbn; rewrite ?Hk; cbn;
      rewrite ?list_lookup_alter_ne by congruence; exact Hx.
  - destruct (sessions (browser w) !! session); [|auto].
    unfold onerror. destruct (mountedRef (refs w)); [|auto].
    apply Hsame; reflexivity.
  - destruct (sessions (browser w) !! session); [|auto].
    apply Hsame; reflexivity.
  - destruct (processors (browser w) !! processor) as [p|]; [|auto].
    destruct (sp_connected p); [|auto]. unfold onaudioprocess.
    destruct (sp_isMuted p); [auto|].
    destruct (PrimFloat.ltb _ _); cbn;
      [destruct (sessionPromiseRef (refs w))|]; apply Hsame; reflexivity.
  - apply Hsame; reflexivity.
  - unfold unmount. apply Hclean; reflexivity.
Qed.

Lemma run_orphan (events : list Event) :
  forall (w : World Blob) (n c : nat) (x : AudioContext),
    (c < n)%nat ->
    contexts (browser w) !! c = Some x ->
    context_ref_from n w ->
    contexts (browser (run events w)) !! c = Some x.
Proof.
  induction events as [|e events IH]; intros w n c x Hc Hx [Hlen Href];
    [exact Hx|].
  assert (Hne : audioContextRef (refs w) ≠ Some c).
  { intros H. apply Href in H. lia. }
  destruct (step_contexts e w c x Hx Hne) as (Hx' & Hlen' & Href').
  change (run (e :: events) w) with (run events (step e w)).
  apply (IH _ n c x Hc Hx'). split; [lia|].
  intros k Hk. destruct (Href' k Hk) as [H|H]; [auto|lia].
Qed.

(** X5.  After "Prøv Igjen" on the error screen, the audio context of the
    failed attempt is out of reach: whatever happens next, hangup and
    unmount included, it stays exactly as it was and is never closed. *)
Theorem retry_orphans_audio_context (w : World Blob) (c : nat)
    (x : AudioContext) (events : list Event) :
  mountedRef (refs w) = true ->
  status (ui w) = error ->
  audioContextRef (refs w) = Some c ->
  contexts (browser w) !! c = Some x ->
  contexts (browser (run (Click ProvIgjen :: events) w)) !! c = Some x.
Proof.
  intros Hm Hs Hc Hx.
  change (run (Click ProvIgjen :: events) w)
    with (run events (step (Click ProvIgjen) w)).
  assert (Hlt : (c < length (contexts (browser w)))%nat)
    by (eapply lookup_lt_Some; exact Hx).
  assert (Hstep : step (Click ProvIgjen) w =
                  startSession None (scope_of w) (upd_ui (set_status idle) w)).
  { cbn [step]. unfold render. rewrite Hm, Hs. cbn [andb buttons].
    rewrite bool_decide_eq_true_2 by left. reflexivity. }
  rewrite Hstep. unfold startSession, scope_of. cbn [r_status]. rewrite Hs.
  apply (run_orphan events _ (length (contexts (browser w))) c x Hlt).
  - cbn. apply lookup_app_l_Some. exact Hx.
  - unfold context_ref_from. cbn.
    split; [rewrite length_app; lia|].
    intros k Hk. injection Hk as <-. lia.
Qed.

End EventLoop.

(** ** Further properties of the transcript *)

Lemma append_assoc (a b c : string) : (a +:+ b) +:+ c = a +:+ (b +:+ c).
Proof.
  induction a as [|ch a IH]; [reflexivity|].
  change (String ch ((a +:+ b) +:+ c) = String ch (a +:+ (b +:+ c))).
  rewrite IH. reflexivity.
Qed.

Lemma append_nil_r (a : string) : a +:+ EmptyString = a.
Proof.
  induction a as [|ch a IH]; [reflexivity|].
  change (String ch (a +:+ EmptyString) = String ch a).
  rewrite IH. reflexivity.
Qed.

Lemma snoc_cases {A : Type} (l : list A) :
  l = [] \/ exists init x, l = init ++ [x].
Proof.
  induction l as [|x l _] using rev_ind; [left; reflexivity|right; eauto].
Qed.

Lemma no_repeat_snoc (rs : list Role) (r0 r : Role) :
  no_repeat (rs ++ [r0]) -> r0 ≠ r -> no_repeat ((rs ++ [r0]) ++ [r]).
Proof.
  induction rs as [|r1 rs IH]; intros Hnr Hne.
  - simpl. auto.
  - destruct rs as [|r2 rs].
    + simpl in *. destruct Hnr as [H1 _]. auto.
    + simpl in Hnr. destruct Hnr as [H12 Hrest].
      change (r1 ≠ r2 /\ no_repeat (((r2 :: rs) ++ [r0]) ++ [r])).
      split; [exact H12|]. apply IH; assumption.
Qed.

Lemma updateTranscript_roles (r : Role) (t : string) (now : Z)
    (prev : list ChatMessage) :
  no_repeat (map role prev) ->
  no_repeat (map role (updateTranscript r t now prev)).
Proof.
  intros Hnr. destruct (snoc_cases prev) as [->|(init & m & ->)].
  - simpl. exact I.
  - destruct (decide (role m = r)) as [<-|Hne].
    + rewrite updateTranscript_same_role.
      rewrite map_app in *. exact Hnr.
    + rewrite updateTranscript_other_role by exact Hne.
      change [m; {| role := r; text := t; timestamp := now |}]
        with ([m] ++ [{| role := r; text := t; timestamp := now |}]).
      rewrite app_assoc, map_app. rewrite map_app in *.
      apply no_repeat_snoc; assumption.
Qed.

(** X6.  The assembler never leaves two neighbouring messages of the same
    role: started on a transcript without such neighbours, in particular on
    the empty one, it yields a transcript in which the roles alternate. *)
Theorem transcript_roles_alternate (deltas : list (Role * string * Z))
    (init : list ChatMessage) :
  no_repeat (map role init) ->
  no_repeat (map role (assemble deltas init)).
Proof.
  revert init. induction deltas as [|d deltas IH]; intros init Hnr.
  - exact Hnr.
  - apply IH. apply updateTranscript_roles. exact Hnr.
Qed.

Lemma said_app (r : Role) (l1 l2 : list ChatMessage) :
  said r (l1 ++ l2) = said r l1 +:+ said r l2.
Proof.
  induction l1 as [|m l1 IH]; simpl; [reflexivity|].
  destruct (decide (role m = r)); rewrite IH; [|reflexivity].
  symmetry. apply append_assoc.
Qed.

Lemma updateTranscript_said (r r' : Role) (t : string) (now : Z)
    (prev : list ChatMessage) :
  said r' (updateTranscript r t now prev) =
  said r' prev +:+ (if decide (r = r') then t else EmptyString).
Proof.
  destruct (snoc_cases prev) as [->|(init & m & ->)].
  - simpl. destruct (decide (r = r')); simpl;
      [rewrite append_nil_r|]; reflexivity.
  - destruct (decide (role m = r)) as [<-|Hne].
    + rewrite updateTranscript_same_role, !said_app. simpl.
      destruct (decide (role m = r')); simpl.
      * rewrite !append_nil_r, append_assoc. reflexivity.
      * rewrite !append_nil_r. reflexivity.
    + rewrite updateTranscript_other_role by exact Hne.
      change [m; {| role := r; text := t; timestamp := now |}]
        with ([m] ++ [{| role := r; text := t; timestamp := now |}]).
      rewrite app_assoc, (said_app r' (init ++ [m])). simpl.
      destruct (decide (r = r')); [rewrite append_nil_r|]; reflexivity.
Qed.

(** X7.  The assembler loses and reorders nothing a speaker says: for each
    role, the texts of that role's messages, concatenated, are the texts of
    that role's deltas, concatenated, after what the transcript held
    before. *)
Theorem transcript_keeps_every_word (r : Role)
    (deltas : list (Role * string * Z)) (init : list ChatMessage) :
  said r (assemble deltas init) = said r init +:+ spoken r deltas.
Proof.
  revert init. induction deltas as [|d deltas IH]; intros init.
  - simpl. symmetry. apply append_nil_r.
  - change (assemble (d :: deltas) init)
      with (assemble deltas (updateTranscript d.1.1 d.1.2 d.2 init)).
    rewrite IH, updateTranscript_said. simpl.
    destruct (decide (d.1.1 = r)); rewrite append_assoc; reflexivity.
Qed.

(** ** Further properties of services/gemini.ts *)

(** X9.  [generatePersonas] rejects exactly when [getClient()] or the
    prompt template throws, both of which run before the [try] block (the
    template cannot throw on a product the code built itself).  Once the AI
    call is reached it always returns: the list the model sent when its
    reply parses, and the empty list whenever the AI call throws, yields no
    text, or the reply does not parse. *)
Theorem generatePersonas_falls_back {Json : Type}
    (getClient : Completion unit)
    (generateContent : string -> Completion (option string))
    (JSON_parse : string -> Completion Json)
    (property_text : Json -> string -> Completion string)
    (property_join : Json -> string -> string -> Completion string)
    (product : Extracted Json) :
  let result :=
    generatePersonas getClient generateContent JSON_parse property_text
      property_join product in
  let template := personas_template property_text property_join product in
  (forall e, getClient = Throw e -> result = Throw e) /\
  (forall ai e, getClient = Return ai -> template = Throw e ->
     result = Throw e) /\
  (forall p, product = Literal p ->
     template = Return (personas_prompt (companyName p) (description p)
                          (join ", " (sellingPoints p)))) /\
  (forall ai prompt, getClient = Return ai -> template = Return prompt ->
     let reply := generateContent prompt in
     (exists v, result = Return v) /\
     ((exists e, reply = Throw e) \/
      (exists t, reply = Return t /\ truthy t = None) \/
      (exists t s e, reply = Return t /\ truthy t = Some s /\
                     JSON_parse s = Throw e) ->
      result = Return (Built [])) /\
     (forall t s json,
        reply = Return t -> truthy t = Some s -> JSON_parse s = Return json ->
        result = Return (Parsed json))).
Proof.
  cbv zeta. unfold generatePersonas. split; [|split; [|split]].
  - intros e ->. reflexivity.
  - intros ai e -> ->. reflexivity.
  - intros p ->. reflexivity.
  - intros ai prompt -> ->. cbn [bind]. split; [|split].
    + destruct (generateContent _) as [t|e]; cbn; [|eauto].
      destruct (truthy t) as [s|]; cbn; [|eauto].
      destruct (JSON_parse s); cbn; eauto.
    + intros [[e He]|[(t & Ht & Hno)|(t & s & e & Ht & Hs & He)]];
        rewrite ?He, ?Ht; cbn; rewrite ?Hno, ?Hs; cbn; rewrite ?He;
        reflexivity.
    + intros t s json Ht Hs Hj. rewrite Ht. cbn. rewrite Hs. cbn. rewrite Hj.
      reflexivity.
Qed.

(** X10.  [evaluateSession] rejects exactly when [getClient()] or the prompt
    template throws, both before the [try] block.  Once the AI call is
    reached it always returns: whenever the AI call throws, yields no text,
    or the reply does not parse, the result is the fallback evaluation, all
    six scores 0 and the single good point "Kunne ikke evaluere". *)
Theorem evaluateSession_falls_back {Json : Type}
    (getClient : Completion unit)
    (generateContent : string -> Completion (option string))
    (JSON_parse : string -> Completion Json)
    (property_text : Json -> string -> Completion string)
    (transcript : list ChatMessage) (product : Extracted Json)
    (persona : Unchecked Json Persona) :
  let result :=
    evaluateSession getClient generateContent JSON_parse property_text
      transcript product persona in
  let template := evaluation_template property_text transcript product persona in
  (forall e, getClient = Throw e -> result = Throw e) /\
  (forall ai e, getClient = Return ai -> template = Throw e ->
     result = Throw e) /\
  (forall p q, product = Literal p -> persona = Built q ->
     template = Return (evaluation_prompt (companyName p) (name q) (title q)
                          (transcriptText transcript))) /\
  (forall ai prompt, getClient = Return ai -> template = Return prompt ->
     let reply := generateContent prompt in
     (exists v, result = Return v) /\
     ((exists e, reply = Throw e) \/
      (exists t, reply = Return t /\ truthy t = None) \/
      (exists t s e, reply = Return t /\ truthy t = Some s /\
                     JSON_parse s = Throw e) ->
      exists ev,
        result = Return (Built ev) /\
        [openingScore ev; discoveryScore ev; pitchScore ev;
         objectionHandlingScore ev; closingScore ev; totalScore ev] =
          [0; 0; 0; 0; 0; 0] /\
        goodPoints ev = ["Kunne ikke evaluere"] /\
        improvementPoints ev = [] /\ nextSteps ev = []) /\
     (forall t s json,
        reply = Return t -> truthy t = Some s -> JSON_parse s = Return json ->
        result = Return (Parsed json))).
Proof.
  cbv zeta. unfold evaluateSession. split; [|split; [|split]].
  - intros e ->. reflexivity.
  - intros ai e -> ->. reflexivity.
  - intros p q -> ->. reflexivity.
  - intros ai prompt -> ->. cbn [bind]. split; [|split].
    + destruct (generateContent _) as [t|e]; cbn; [|eauto].
      destruct (truthy t) as [s|]; cbn; [|eauto].
      destruct (JSON_parse s); cbn; eauto.
    + intros [[e He]|[(t & Ht & Hno)|(t & s & e & Ht & Hs & He)]];
        rewrite ?He, ?Ht; cbn; rewrite ?Hno, ?Hs; cbn; rewrite ?He; cbn;
        eexists; (split; [reflexivity|]); cbn; auto.
    + intros t s json Ht Hs Hj. rewrite Ht. cbn. rewrite Hs. cbn. rewrite Hj.
      reflexivity.
Qed.

(** ** Properties of App.tsx, UrlAnalyzer.tsx and EvaluationResult.tsx *)

Section ShellProperties.

Context {Product Persona Metrics : Type}.
Context `{!Truthy Product, !Truthy Persona, !Truthy Metrics}.

Local Abbreviation Model := (@Shell.Model Product Persona Metrics).
Local Abbreviation Event := (@Shell.Event Product Persona Metrics).

Lemma shell_view_usable (m : Model) (product : Product) (persona : Persona) :
  Shell.productContext m = Some product -> is_truthy product = true ->
  Shell.selectedPersona m = Some persona -> is_truthy persona = true ->
  Shell.view m =
    match Shell.state m with
    | SETUP => Shell.UrlAnalyzerScreen
    | PERSONA_SELECTION => Shell.PersonaSelectorScreen product
    | CALLING =>
        match Shell.callMode m with
        | VOICE => Shell.CallInterfaceScreen persona product
        | TEXT => Shell.ChatSessionScreen persona product
        end
    | EVALUATION =>
        match Shell.evaluation m with
        | Some result =>
            if is_truthy result then Shell.EvaluationShown result
            else Shell.EvaluationLoading
        | None => Shell.EvaluationLoading
        end
    | HISTORY => Shell.Blank
    end.
Proof.
  intros Hp Htp Hq Htq. unfold Shell.view. rewrite Hp, Hq, Htp, Htq.
  destruct (Shell.state m); reflexivity.
Qed.



(** X12.  A call that ends with an empty transcript is never evaluated: the
    evaluation screen shows its spinner, and no later event gets [App] out
    of it. *)
Theorem empty_transcript_is_never_evaluated (m : Model) (events : list Event) :
  Shell.well_formed m ->
  Shell.state m = CALLING ->
  let m' := Shell.run (Shell.OnEndCall [] :: events) m in
  Shell.state m' = EVALUATION /\ Shell.view m' = Shell.EvaluationLoading /\
  Shell.callTranscript m' = [].
Proof.
  intros Hwf Hst. cbv zeta.
  assert (Hstuck : forall (events : list Event) (x : Model),
            Shell.state x = EVALUATION ->
            Shell.usable (Shell.productContext x) ->
            Shell.usable (Shell.selectedPersona x) ->
            Shell.evaluation x = None -> Shell.evaluating x = false ->
            Shell.callTranscript x = [] ->
            Shell.state (Shell.run events x) = EVALUATION /\
            Shell.view (Shell.run events x) = Shell.EvaluationLoading /\
            Shell.callTranscript (Shell.run events x) = []).
  { clear. intros events. induction events as [|e events IH];
      intros x Hs (product & Hp & Htp) (persona & Hq & Htq) He Hb Ht.
    - change (Shell.run [] x) with x.
      rewrite (shell_view_usable x product persona Hp Htp Hq Htq), Hs, He.
      auto.
    - cbn [Shell.run fold_left].
      assert (Hx : Shell.step e x = x).
      { unfold Shell.step.
        rewrite (shell_view_usable x product persona Hp Htp Hq Htq), Hs, He, Hb.
        destruct e; reflexivity. }
      rewrite Hx. apply IH; unfold Shell.usable; eauto. }
  unfold Shell.well_formed in Hwf. rewrite Hst in Hwf.
  destruct Hwf as [(product & Hp & Htp) (persona & Hq & Htq)].
  cbn [Shell.run fold_left].
  assert (Hend : Shell.step (Shell.OnEndCall []) m = Shell.handleEndCall [] m).
  { unfold Shell.step.
    rewrite (shell_view_usable m product persona Hp Htp Hq Htq), Hst.
    destruct (Shell.callMode m); reflexivity. }
  rewrite Hend. apply Hstuck; unfold Shell.usable; cbn; eauto.
Qed.

End ShellProperties.

(** X13.  What submitting the form of [UrlAnalyzer] does.  The form always
    stops loading.  When [getClient()] throws, [extractProductInfo] rejects:
    the alert of the [catch] block is shown and [App] is left as it was.
    Otherwise [onComplete] is called and no alert is shown: [App] moves to
    the persona selection with the value received, which is the fallback
    context carrying the typed url when the AI call throws or yields no
    text; the persona selector is rendered if that value is truthy, and
    nothing is rendered if it is not (a reply such as [null]). *)
Theorem submit_outcomes {Json Persona Metrics : Type}
    `{!Truthy Json, !Truthy Persona, !Truthy Metrics}
    (getClient : Completion unit)
    (generateContent : string -> Completion (option string))
    (JSON_parse : string -> Completion Json)
    (u : UrlAnalyzerState)
    (m : @Shell.Model (Extracted Json) Persona Metrics) :
  let result := handleSubmit getClient generateContent JSON_parse u m in
  let reply :=
    generateContent (extract_prompt (ua_url u) (ua_manualText u)) in
  let idle_form :=
    {| ua_url := ua_url u; ua_manualText := ua_manualText u;
       ua_loading := false |} in
  result.1.1 = idle_form /\
  (forall e, getClient = Throw e ->
     result = (idle_form, m, ["Noe gikk galt under analysen. Prøv igjen."])) /\
  (forall ai, getClient = Return ai ->
     exists data,
       result = (idle_form, Shell.handleProductAnalyzed data m, []) /\
       Shell.state (Shell.handleProductAnalyzed data m) = PERSONA_SELECTION /\
       Shell.view (Shell.handleProductAnalyzed data m) =
         (if is_truthy data then Shell.PersonaSelectorScreen data
          else Shell.Blank) /\
       (forall t s json,
          reply = Return t -> truthy t = Some s -> JSON_parse s = Return json ->
          data = FromModel json) /\
       ((exists e, reply = Throw e) \/
        (exists t, reply = Return t /\ truthy t = None) ->
        exists p, data = Literal p /\ url p = ua_url u /\
                  companyName p = "Ukjent Bedrift" /\
                  is_truthy data = true)).
Proof.
  cbv zeta. unfold handleSubmit, extractProductInfo. split; [|split].
  - destruct getClient as [ai|e]; cbn; [|reflexivity].
    destruct (generateContent _) as [t|e]; cbn; [|reflexivity].
    destruct (truthy t) as [s|]; cbn; [|reflexivity].
    destruct (JSON_parse s); reflexivity.
  - intros e ->. reflexivity.
  - intros ai ->. cbn [bind].
    destruct (generateContent _) as [t|e]; cbn.
    + destruct (truthy t) as [s|] eqn:Hs; cbn.
      * destruct (JSON_parse s) as [json|e] eqn:Hj; cbn; eexists;
          (split; [reflexivity|]); (split; [reflexivity|]);
          (split; [reflexivity|]);
          (split; [intros t' s' json' Ht Hs' Hj'; injection Ht as <-;
                   rewrite Hs in Hs'; injection Hs' as <-; congruence|]);
          intros [[e' He]|(t' & Ht & Hno)]; try discriminate;
          injection Ht as <-; congruence.
      * eexists. repeat (split; [reflexivity|]).
        split; [intros t' s' json' Ht Hs'; injection Ht as <-; congruence|].
        intros _. eauto 10.
    + eexists. repeat (split; [reflexivity|]).
      split; [intros t' s' json' Ht; discriminate|]. intros _. eauto 10.
Qed.

(** ** Properties of ChatSession.tsx *)

Section ChatProperties.

Variable trim : string -> string.

Local Abbreviation step := (Chat.step trim).
Local Abbreviation run := (Chat.run trim).

Lemma chat_step_invariant (e : Chat.Event) (s : Chat.State) :
  Chat.invariant trim s -> Chat.invariant trim (step e s).
Proof.
  intros Hinv. pose proof Hinv as (Hreq & Hgreet & Htext).
  destruct e as [v|dateNow|res_text dateNow|]; cbn [Chat.step].
  - exact Hinv.
  - unfold Chat.handleSend.
    destruct (decide (trim (Chat.input s) = EmptyString)) as [|Hne];
      [exact Hinv|].
    destruct (Chat.isLoading s) eqn:Hl; [exact Hinv|].
    destruct Hreq as [[Ha _]|[_ Hl']]; [|congruence].
    unfold Chat.invariant. cbn. rewrite Ha. cbn.
    split; [right; eauto|]. split; [discriminate|].
    apply Forall_app. split; [exact Htext|].
    constructor; [|constructor]. intros _. exact Hne.
  - unfold Chat.resolved.
    destruct Hreq as [[Ha Hl]|[[r Ha] Hl]]; rewrite Ha; [exact Hinv|].
    destruct r; unfold Chat.invariant; cbn;
      (split; [left; auto|]); (split; [discriminate|]);
      destruct (truthy res_text); try exact Htext.
    + constructor; [discriminate|constructor].
    + apply Forall_app. split; [exact Htext|].
      constructor; [discriminate|constructor].
  - unfold Chat.rejected.
    destruct Hreq as [[Ha Hl]|[[r Ha] Hl]]; rewrite Ha; [exact Hinv|].
    unfold Chat.invariant. cbn. split; [left; auto|].
    split; [discriminate|exact Htext].
Qed.

Lemma chat_run_invariant (events : list Chat.Event) :
  Chat.invariant trim (run events Chat.mount).
Proof.
  induction events as [|e events IH] using rev_ind.
  - unfold Chat.invariant. cbn. split; [right; eauto|]. split; [auto|].
    constructor.
  - unfold Chat.run. rewrite fold_left_app. cbn [fold_left].
    apply chat_step_invariant. exact IH.
Qed.

(** X14.  From the mount on, the chat awaits at most one [sendMessage] at a time,
    [isLoading] is set exactly while it awaits one, and no user message in
    the transcript is blank. *)
Theorem chat_one_request_at_a_time (events : list Chat.Event) :
  let s := run events Chat.mount in
  (length (Chat.awaiting s) <= 1)%nat /\
  (Chat.isLoading s = true <-> Chat.awaiting s ≠ []) /\
  Forall (fun m => role m = user -> trim (text m) ≠ EmptyString)
    (Chat.messages s).
Proof.
  cbv zeta. destruct (chat_run_invariant events) as (Hreq & _ & Htext).
  split; [|split; [|exact Htext]].
  - destruct Hreq as [[-> _]|[[r ->] _]]; cbn; lia.
  - destruct Hreq as [[-> ->]|[[r ->] ->]]; split; intros H;
      try discriminate; try reflexivity; congruence.
Qed.

(** X15.  From the mount on, the chat transcript only grows at its end: what was
    there stays, in place, through any further events. *)
Theorem chat_transcript_only_grows (events later : list Chat.Event) :
  Chat.messages (run events Chat.mount) `prefix_of`
  Chat.messages (run (events ++ later) Chat.mount).
Proof.
  induction later as [|e later IH] using rev_ind.
  - rewrite app_nil_r. reflexivity.
  - rewrite app_assoc. unfold Chat.run at 2. rewrite fold_left_app.
    cbn [fold_left]. fold (run (events ++ later) Chat.mount).
    etransitivity; [exact IH|].
    destruct (chat_run_invariant (events ++ later)) as (Hreq & Hgreet & _).
    set (s := run (events ++ later) Chat.mount) in *. clearbody s.
    destruct e as [v|dateNow|res_text dateNow|]; cbn [Chat.step].
    + reflexivity.
    + unfold Chat.handleSend.
      destruct (decide _); [reflexivity|].
      destruct (Chat.isLoading s); [reflexivity|].
      cbn. apply prefix_app_r. reflexivity.
    + unfold Chat.resolved.
      destruct (Chat.awaiting s) as [|[|] rest] eqn:Ha; [reflexivity| |];
        cbn; destruct (truthy res_text); try reflexivity.
      * destruct Hreq as [[H _]|[[r H] _]]; [discriminate|].
        injection H as _ Hrest. subst rest.
        rewrite (Hgreet eq_refl). apply prefix_nil.
      * apply prefix_app_r. reflexivity.
    + unfold Chat.rejected. destruct (Chat.awaiting s); reflexivity.
Qed.

End ChatProperties.

(** ** Witnesses and one more frame property *)

Section MessageFrame.

Context {Blob : Type}.
Variable createPCM16Blob : list float -> Blob.
Variable decodeAudioData : string -> option AudioBuffer.

(** X8.  A server message, whatever it carries, changes only the transcript and
    the playback side (the cursor, the active set, the buffer sources, a
    suspended playback context resumed): the status, the error message, the
    mute flag, the volume level, [App]'s state, the microphone stream, the
    capture nodes, the sessions and every other ref stay as they are. *)
Theorem server_message_touches_playback_only (session : nat) (now dateNow : Z)
    (m : LiveServerMessage) (w : World Blob) :
  let w' := step createPCM16Blob decodeAudioData
              (SessionMessage session now dateNow m) w in
  (status (ui w') = status (ui w) /\ errorMsg (ui w') = errorMsg (ui w) /\
   isMuted (ui w') = isMuted (ui w) /\
   volumeLevel (ui w') = volumeLevel (ui w)) /\
  (app w' = app w /\ pending w' = pending w) /\
  (streams (browser w') = streams (browser w) /\
   inputSources (browser w') = inputSources (browser w) /\
   processors (browser w') = processors (browser w) /\
   sessions (browser w') = sessions (browser w) /\
   length (contexts (browser w')) = length (contexts (browser w))) /\
  (audioContextRef (refs w') = audioContextRef (refs w) /\
   inputSourceRef (refs w') = inputSourceRef (refs w) /\
   processorRef (refs w') = processorRef (refs w) /\
   streamRef (refs w') = streamRef (refs w) /\
   sessionPromiseRef (refs w') = sessionPromiseRef (refs w) /\
   mountedRef (refs w') = mountedRef (refs w)).
Proof.
  cbv zeta. cbn [step].
  destruct (sessions (browser w) !! session); [|repeat split; reflexivity].
  pose proof (onmessage_frame decodeAudioData now dateNow m w) as H.
  cbv zeta in H. tauto.
Qed.

End MessageFrame.

Lemma only_a_click_connects_witness :
  @Click StartSamtale = Click StartSamtale \/
  @Click StartSamtale = Click ProvIgjen.
Proof.
  apply (only_a_click_connects sample_encode sample_decode
           (Click StartSamtale) (mounted (list float))).
  vm_compute. reflexivity.
Defined.

Lemma status_transitions_witness :
  status (ui (step sample_encode sample_decode (Click StartSamtale)
                (mounted (list float)))) = connecting.
Proof.
  destruct (status_transitions sample_encode sample_decode
              (Click StartSamtale) (mounted (list float)))
    as [[_ H]|[[_ H]|[[_ H]|[[_ H]|[[_ H]|[_ H]]]]]];
    [discriminate|exact H|discriminate H..].
Defined.

Lemma retry_orphans_audio_context_witness :
  contexts
    (browser
       (run sample_encode sample_decode
          [Click ProvIgjen; MediaGranted; SessionOpen 1%nat;
           Click AvsluttSamtale] failed_call)) !! 0%nat =
  Some {| sampleRate := 24000; ctx_state := running |}.
Proof.
  apply (retry_orphans_audio_context sample_encode sample_decode
           failed_call 0%nat {| sampleRate := 24000; ctx_state := running |}
           [MediaGranted; SessionOpen 1%nat; Click AvsluttSamtale]);
    reflexivity.
Defined.

Lemma transcript_roles_alternate_witness :
  no_repeat
    (map role
       (assemble [(model, "Hei", 1); (model, " der", 2); (user, "stopp", 3)]
          [])).
Proof.
  apply (transcript_roles_alternate
           [(model, "Hei", 1); (model, " der", 2); (user, "stopp", 3)] []).
  exact I.
Defined.

Lemma empty_transcript_is_never_evaluated_witness :
  Shell.view
    (Shell.run [Shell.OnEndCall []; Shell.EvaluationResolved "resultat";
                Shell.OnRestart; Shell.OnBack] app_in_call) =
  Shell.EvaluationLoading.
Proof.
  refine (proj1 (proj2 (empty_transcript_is_never_evaluated app_in_call
            [Shell.EvaluationResolved "resultat"; Shell.OnRestart;
             Shell.OnBack] _ eq_refl))).
  split; eexists; split; reflexivity.
Defined.


(** A falsy value handed to [onComplete] (the empty string here, the parsed
    reply [null] in the application): [App] is in [PERSONA_SELECTION] and
    renders nothing. *)
Example falsy_product_blanks_the_app :
  let m := Shell.run [Shell.OnComplete ""]
             (@Shell.initial string string string) in
  Shell.state m = PERSONA_SELECTION /\ Shell.view m = Shell.Blank /\
  forall events, Shell.view (Shell.run events m) = Shell.Blank.
Proof.
  cbv zeta. split; [reflexivity|]. split; [reflexivity|].
  intros events. induction events as [|e events IH] using rev_ind;
    [reflexivity|].
  unfold Shell.run in *. rewrite fold_left_app. cbn [fold_left].
  set (x := fold_left _ events _) in *. clearbody x.
  unfold Shell.step. rewrite IH. destruct e; try exact IH.
  destruct (Shell.state x) eqn:Hst; try exact IH.
  unfold Shell.view in *. cbn. rewrite Hst in *.
  destruct (Shell.selectedPersona x) as [persona|]; [|reflexivity].
  destruct (Shell.productContext x) as [product|]; [|reflexivity].
  destruct (is_truthy persona && is_truthy product); [|reflexivity].
  destruct (Shell.callMode x); discriminate IH.
Qed.
